(** * cubana: the leveled logger (log.c) and the error-code table (errorcodes.c)

    A shallow embedding of the logger's global state [L], of the
    operations that read and write it, of the two built-in sinks
    ([stdout_callback] and [file_callback]) and of [ErrorCodeToString],
    followed by the properties the specification states about them.

    Conventions.
    - A C [int] is a [Z]. The logger only stores, copies and compares its
      [int]s; no arithmetic is done on them, so no wrap-around arises.
    - A data pointer ([void *], [FILE *], [File *]) is its address, a [Z];
      [NULL] is [0].
    - A function pointer of type [log_LogFn] is an [option LogFn]; [None]
      is the null pointer, which [log_add_callback] and [log_log] test with
      [!fn] and [fn].
    - Calling a sink is recorded in a trace; what the two built-in sinks then
      do with the event is a list of stream operations. A sink does not call
      back into the logger.
    - [log_log] hands every sink the address of its one local event, so a
      sink of the caller can write through it; [sink_writes] says what such
      a sink leaves there. The sinks of log.c only read the event.
    - The clock does not advance during one [log_log] call: whenever
      [init_event] reads it, it reads [now]. *)

From Stdlib Require Import ZArith Lia DecimalString Ascii.
From stdpp Require Import base list strings numbers.

Local Open Scope Z_scope.

(** ** Data model *)

Abbreviation ptr := Z.

Definition NULL : ptr := 0.

(** The address of the [stderr] stream: some non-null address. *)
Definition stderr : ptr := 2.

(** [#define MAX_CALLBACKS 2] *)
Definition MAX_CALLBACKS : nat := 2.

(** The functions a [log_LogFn] can point to: the two sinks log.c defines
    for registration, and any function of the caller. *)
Inductive LogFn : Type :=
| file_callback_fn
| msvc_debug_callback_fn
| user_fn (addr : positive).

Global Instance LogFn_eq_dec : EqDecision LogFn.
Proof. solve_decision. Defined.

(** [typedef struct { log_LogFn fn; void *udata; int level; } Callback;] *)
Record Callback : Type := mkCallback {
  fn : option LogFn;
  udata : ptr;
  level : Z
}.

Global Instance Callback_eq_dec : EqDecision Callback.
Proof. solve_decision. Defined.

(** [static struct { void *udata; int level; bool quiet;
                     Callback callbacks[MAX_CALLBACKS]; } L;] *)
Record Logger : Type := mkLogger {
  L_udata : ptr;
  L_level : Z;
  L_quiet : bool;
  callbacks : list Callback
}.

(** A static object is zero-initialised. *)
Definition empty_slot : Callback := mkCallback None NULL 0.

Definition L_init : Logger :=
  mkLogger NULL 0 false (replicate MAX_CALLBACKS empty_slot).

(** [struct tm], the fields the two [strftime] formats read. *)
Record tm : Type := mkTm {
  tm_sec : Z;
  tm_min : Z;
  tm_hour : Z;
  tm_mday : Z;
  tm_mon : Z;
  tm_year : Z
}.

(** One variadic argument, and a [va_list]. *)
Inductive va_arg : Type :=
| VInt (z : Z)
| VStr (s : string).

Definition va_list : Type := list va_arg.

(** [log_Event]: [ap] is the argument list [va_start] yields, the same at
    every [va_start] of one [log_log] call. [time] is a [struct tm *],
    [None] when null. *)
Record log_Event : Type := mkEvent {
  ev_ap : va_list;
  ev_fmt : string;
  ev_file : string;
  ev_time : option tm;
  ev_udata : ptr;
  ev_line : Z;
  ev_level : Z
}.

(** ** Setters *)

(** [void log_set_level(int level) { L.level = level; }] *)
Definition log_set_level (lvl : Z) (L : Logger) : Logger :=
  mkLogger (L_udata L) lvl (L_quiet L) (callbacks L).

(** [void log_set_quiet(bool enable) { L.quiet = enable; }] *)
Definition log_set_quiet (enable : bool) (L : Logger) : Logger :=
  mkLogger (L_udata L) (L_level L) enable (callbacks L).

(** ** Registration *)

Definition set_callback (i : nat) (cb : Callback) (L : Logger) : Logger :=
  mkLogger (L_udata L) (L_level L) (L_quiet L) (<[i := cb]> (callbacks L)).

(** The loop of [log_add_callback], from index [i] with [n] iterations of
    [i < MAX_CALLBACKS] left. It returns the new state and the [int]
    result. The loop stays inside the array, so the lookup finds a slot
    whenever [callbacks L] has its [MAX_CALLBACKS] slots. *)
Fixpoint add_callback_from (n i : nat) (f : option LogFn) (u : ptr) (lvl : Z)
    (L : Logger) : Logger * Z :=
  match n with
  | O => (L, -1)
  | S n' =>
      match callbacks L !! i with
      | Some cb =>
          match fn cb with
          | None => (set_callback i (mkCallback f u lvl) L, 0)
          | Some _ => add_callback_from n' (S i) f u lvl L
          end
      | None => (L, -1)
      end
  end.

(** [int log_add_callback(log_LogFn fn, void *udata, int level)] *)
Definition log_add_callback (f : option LogFn) (u : ptr) (lvl : Z)
    (L : Logger) : Logger * Z :=
  add_callback_from MAX_CALLBACKS 0 f u lvl L.

(** [int log_add_fp(File* file, int level)] *)
Definition log_add_fp (file : ptr) (lvl : Z) (L : Logger) : Logger * Z :=
  log_add_callback (Some file_callback_fn) file lvl L.

(** [int log_init(void)]; [msc_ver] tells whether [_MSC_VER] is defined. *)
Definition log_init (msc_ver : bool) (L : Logger) : Logger * Z :=
  if msc_ver
  then log_add_callback (Some msvc_debug_callback_fn) NULL (L_level L) L
  else (L, 0).

(** ** Dispatch: [log_log] *)

(** A call [log_log] makes: [stdout_callback(&ev)], or [cb->fn(&ev)] with
    [cb = &L.callbacks[i]]. The event is recorded as the callee receives
    it. *)
Inductive call : Type :=
| CallStdout (ev : log_Event)
| CallCb (i : nat) (cb : Callback) (ev : log_Event).

(** [init_event]: [now] is the [struct tm] that [localtime(&t)] yields for
    [t = time(NULL)]; it is read only while [ev->time] is null. *)
Definition init_event (now : tm) (ev : log_Event) (u : ptr) : log_Event :=
  mkEvent (ev_ap ev) (ev_fmt ev) (ev_file ev)
    (match ev_time ev with None => Some now | Some t => Some t end)
    u (ev_line ev) (ev_level ev).

(** The header of the loop of [log_log],
    [for (int i = 0; i < MAX_CALLBACKS && L.callbacks[i].fn; i++)],
    from index [i] with [n] iterations of [i < MAX_CALLBACKS] left; [body]
    is run on the slot index, the slot and the loop's state. *)
Fixpoint callbacks_from {A : Type} (body : nat -> Callback -> A -> A)
    (n i : nat) (L : Logger) (a : A) : A :=
  match n with
  | O => a
  | S n' =>
      match callbacks L !! i with
      | Some cb =>
          match fn cb with
          | Some _ => callbacks_from body n' (S i) L (body i cb a)
          | None => a
          end
      | None => a
      end
  end.

(** [va_start(ev.ap, fmt)]: [ev.ap] becomes the argument list of the
    [log_log] call. [va_end] leaves nothing to read in it, and the next
    [va_start] sets it anew. *)
Definition va_start (ap : va_list) (ev : log_Event) : log_Event :=
  mkEvent ap (ev_fmt ev) (ev_file ev) (ev_time ev) (ev_udata ev) (ev_line ev)
    (ev_level ev).

(** What the sinks of the caller do to the event they are handed: a sink
    receives [log_Event *ev], the address of the local [ev] of [log_log],
    and for [W : sink_writes], [W a ev] is that local after the function at
    [a] has run on [ev]. *)
Definition sink_writes : Type := positive → log_Event → log_Event.

(** The local [ev] after [cb->fn(&ev)] has returned. [file_callback] and
    [msvc_debug_callback] read the event and write no field of it. *)
Definition after_call (W : sink_writes) (f : option LogFn) (ev : log_Event)
    : log_Event :=
  match f with
  | Some (user_fn a) => W a ev
  | Some file_callback_fn | Some msvc_debug_callback_fn | None => ev
  end.

(** The body of that loop; the state is the local [ev] and the calls made
    so far. The call is recorded with the event as the callee finds it; the
    loop goes on with the event as the callee leaves it. *)
Definition log_body (W : sink_writes) (now : tm) (lvl : Z) (ap : va_list)
    (i : nat) (cb : Callback) (st : log_Event * list call)
    : log_Event * list call :=
  if level cb <=? lvl
  then let ev := va_start ap (init_event now st.1 (udata cb)) in
       (after_call W (fn cb) ev, st.2 ++ [CallCb i cb ev])
  else st.

(** The console part of [log_log]: [if (!L.quiet && level >= L.level)].
    [stdout_callback] reads the event and writes no field of it. *)
Definition log_console (now : tm) (lvl : Z) (ap : va_list) (L : Logger)
    (ev : log_Event) : log_Event * list call :=
  if negb (L_quiet L) && (L_level L <=? lvl)
  then let ev' := va_start ap (init_event now ev stderr) in
       (ev', [CallStdout ev'])
  else (ev, []).

(** [void log_log(int level, const char *file, int line, const char *fmt, ...)]:
    the calls it makes, in order. The local [ev] starts with the four
    fields of its initialiser and zeroes elsewhere. [L] is read and not
    written. *)
Definition log_log (W : sink_writes) (now : tm) (lvl : Z) (file : string)
    (line : Z) (fmt : string) (ap : va_list) (L : Logger) : list call :=
  let ev := mkEvent [] fmt file None NULL line lvl in
  (callbacks_from (log_body W now lvl ap) MAX_CALLBACKS 0 L
     (log_console now lvl ap L ev)).2.

(** The slot indices the loop of [log_log] runs its body on. *)
Definition visited (L : Logger) : list nat :=
  callbacks_from (fun i _ acc => acc ++ [i]) MAX_CALLBACKS 0 L [].

(** Projections of a trace. *)
Definition is_stdout (c : call) : bool :=
  match c with CallStdout _ => true | CallCb _ _ _ => false end.

Definition console_calls (t : list call) : list call := filter is_stdout t.

Definition callback_calls (t : list call) : list call :=
  filter (fun c => negb (is_stdout c)) t.

(** Slot [i] was called (with the event [ev]). *)
Definition called_with (i : nat) (ev : log_Event) (t : list call) : Prop :=
  exists cb, CallCb i cb ev ∈ t.

Definition called (i : nat) (t : list call) : Prop :=
  exists ev, called_with i ev t.

(** The callback [cb] of slot [i] was called. *)
Definition calls (i : nat) (cb : Callback) (t : list call) : Prop :=
  exists ev, CallCb i cb ev ∈ t.

(** ** The interface as a transition system *)

(** One operation of the logger's interface with its arguments. *)
Inductive op : Type :=
| Set_level (lvl : Z)
| Set_quiet (enable : bool)
| Add_callback (f : option LogFn) (u : ptr) (lvl : Z)
| Add_fp (file : ptr) (lvl : Z)
| Init
| Log (now : tm) (lvl : Z) (file : string) (line : Z) (fmt : string)
      (ap : va_list).

(** The state after an operation and the [int] it returns ([None] for a
    [void] function). *)
Definition step (msc_ver : bool) (o : op) (L : Logger) : Logger * option Z :=
  match o with
  | Set_level lvl => (log_set_level lvl L, None)
  | Set_quiet enable => (log_set_quiet enable L, None)
  | Add_callback f u lvl =>
      let r := log_add_callback f u lvl L in (r.1, Some r.2)
  | Add_fp file lvl => let r := log_add_fp file lvl L in (r.1, Some r.2)
  | Init => let r := log_init msc_ver L in (r.1, Some r.2)
  | Log _ _ _ _ _ _ => (L, None)
  end.

(** The states the process can be in: the zero-initialised [L], and what
    any sequence of operations makes of it. *)
Inductive reachable (msc_ver : bool) : Logger -> Prop :=
| reachable_init : reachable msc_ver L_init
| reachable_step o L :
    reachable msc_ver L -> reachable msc_ver (step msc_ver o L).1.

(** The state after a sequence of operations. *)
Definition run (msc_ver : bool) (os : list op) (L : Logger) : Logger :=
  foldl (λ L o, (step msc_ver o L).1) L os.

(** The number of registered callbacks: the slots whose [fn] is not null. *)
Definition registered (cb : Callback) : bool :=
  match fn cb with Some _ => true | None => false end.

Definition count_registered (L : Logger) : nat :=
  length (filter registered (callbacks L)).

(** ** The error-code table (errorcodes.c) *)

Definition error_code_strings : list string :=
  ["CU_SUCCESS"; "CU_FAILURE"; "CU_LOG_FILE_ERROR"; "CU_FILE_CLOSE_ERROR"]%string.

(** Reading [table[i]] for an [int i]: [None] stands for the undefined
    behaviour of an index outside the array. *)
Definition index {A : Type} (table : list A) (i : Z) : option A :=
  if i <? 0 then None else table !! Z.to_nat i.

(** [const char* ErrorCodeToString(int error_code)] *)
Definition ErrorCodeToString (error_code : Z) : option string :=
  index error_code_strings error_code.

(** ** The two built-in sinks *)

(** What a sink does to its destination. [Fprint] is a [fprintf] or
    [vfprintf] on a [FILE *] with the text it produces; [FileWrite] is a
    [FileWriteStrf] or [FileWriteStrfv] on a [File *] (file.h) with the
    text it is asked to write. *)
Inductive io_op : Type :=
| Fprint (stream : ptr) (text : string)
| Fflush (stream : ptr)
| FileWrite (file : ptr) (text : string).

Definition ESC : ascii := Ascii.ascii_of_nat 27.
Definition newline : string := String (Ascii.ascii_of_nat 10) "".

Definition level_strings : list string :=
  ["TRACE"; "DEBUG"; "INFO"; "WARN"; "ERROR"; "FATAL"]%string.

Definition level_colors : list string :=
  [String ESC "[94m"; String ESC "[36m"; String ESC "[32m";
   String ESC "[33m"; String ESC "[31m"; String ESC "[35m"].

(** [const char* log_level_string(int level)] *)
Definition log_level_string (lvl : Z) : option string :=
  index level_strings lvl.

(** [%d] *)
Definition string_of_Z (z : Z) : string :=
  NilZero.string_of_int (Z.to_int z).

Definition spaces (n : nat) : string :=
  fold_right String ""%string (replicate n " "%char).

(** [%-6s], [%-5s]: left-justified in a field of at least [w]. *)
Definition pad_right (w : nat) (s : string) : string :=
  (s +:+ spaces (w - String.length s))%string.

(** [%H], [%M], [%S], [%m], [%d] of [strftime]: a decimal number, with a
    leading zero below 10. *)
Definition two_digits (z : Z) : string :=
  if (0 <=? z) && (z <? 10) then ("0" +:+ string_of_Z z)%string
  else string_of_Z z.

(** One conversion specification of [strftime]. [tm_mon] counts from 0 and
    [tm_year] from 1900. *)
Definition strftime_conv (c : ascii) (t : tm) : string :=
  if decide (c = "H"%char) then two_digits (tm_hour t)
  else if decide (c = "M"%char) then two_digits (tm_min t)
  else if decide (c = "S"%char) then two_digits (tm_sec t)
  else if decide (c = "Y"%char) then string_of_Z (tm_year t + 1900)
  else if decide (c = "m"%char) then two_digits (tm_mon t + 1)
  else if decide (c = "d"%char) then two_digits (tm_mday t)
  else ""%string.

Fixpoint strftime_expand (fmt : string) (t : tm) : string :=
  match fmt with
  | EmptyString => ""%string
  | String c rest =>
      if decide (c = "%"%char)
      then match rest with
           | String k rest' => (strftime_conv k t +:+ strftime_expand rest' t)%string
           | EmptyString => ""%string
           end
      else String c (strftime_expand rest t)
  end.

(** [buf[strftime(buf, max, fmt, t)] = '\0']: the string left in [buf].
    [strftime] returns 0 when the text and its terminator do not fit. *)
Definition strftime (max : nat) (fmt : string) (t : tm) : string :=
  let s := strftime_expand fmt t in
  if decide (String.length s < max)%nat then s else ""%string.

Section Sinks.

(** The text [vfprintf] produces from a format and its arguments. *)
Variable vformat : string -> va_list -> string.

(** Whether [LOG_USE_COLOR] is defined. *)
Variable LOG_USE_COLOR : bool.

(** [static void stdout_callback(log_Event *ev)]; [None] is undefined
    behaviour (a null [ev->time], a level outside [level_strings]). *)
Definition stdout_callback (ev : log_Event) : option (list io_op) :=
  t ← ev_time ev;
  let buf := strftime 16 "%H:%M:%S" t in
  lv ← index level_strings (ev_level ev);
  head ←
    (if LOG_USE_COLOR
     then
       col ← index level_colors (ev_level ev);
       Some (buf +:+ " " +:+ col +:+ pad_right 5 lv +:+ String ESC "[0m"
               +:+ " " +:+ String ESC "[90m" +:+ ev_file ev +:+ ":"
               +:+ string_of_Z (ev_line ev) +:+ ":" +:+ String ESC "[0m"
               +:+ " ")%string
     else
       Some (buf +:+ " " +:+ pad_right 6 lv +:+ " " +:+ ev_file ev +:+ ":"
               +:+ string_of_Z (ev_line ev) +:+ ": ")%string);
  Some [Fprint (ev_udata ev) head;
        Fprint (ev_udata ev) (vformat (ev_fmt ev) (ev_ap ev));
        Fprint (ev_udata ev) newline;
        Fflush (ev_udata ev)].

(** [static void file_callback(log_Event *ev)] *)
Definition file_callback (ev : log_Event) : option (list io_op) :=
  t ← ev_time ev;
  let buf := strftime 64 "%Y-%m-%d %H:%M:%S" t in
  lv ← index level_strings (ev_level ev);
  Some [FileWrite (ev_udata ev)
          (buf +:+ " " +:+ pad_right 6 lv +:+ " " +:+ ev_file ev +:+ ":"
             +:+ string_of_Z (ev_line ev) +:+ ": ")%string;
        FileWrite (ev_udata ev) (vformat (ev_fmt ev) (ev_ap ev));
        FileWrite (ev_udata ev) newline].

(** What running one call of a trace does. A sink other than the two
    above is opaque: it contributes no stream operation here. *)
Definition run_call (c : call) : option (list io_op) :=
  match c with
  | CallStdout ev => stdout_callback ev
  | CallCb _ cb ev =>
      match fn cb with
      | Some file_callback_fn => file_callback ev
      | _ => Some []
      end
  end.

(** The stream operations of the console sink in a trace. *)
Definition console_output (t : list call) : option (list io_op) :=
  ops ← mapM run_call (console_calls t); Some (concat ops).

End Sinks.

(** The text an emission hands to its destination, in order. *)
Definition text_of (o : io_op) : string :=
  match o with
  | Fprint _ s | FileWrite _ s => s
  | Fflush _ => ""%string
  end.

Definition written (ops : list io_op) : string :=
  fold_right (fun o acc => (text_of o +:+ acc)%string) ""%string ops.

(** The destination an operation acts on. *)
Definition dest_of (o : io_op) : ptr :=
  match o with Fprint p _ | Fflush p | FileWrite p _ => p end.

(** The emission ends by flushing [dest]. *)
Definition flushes_last (dest : ptr) (ops : list io_op) : Prop :=
  list.last ops = Some (Fflush dest).

Global Instance io_op_eq_dec : EqDecision io_op.
Proof. solve_decision. Defined.

(** ** Notions the properties are stated with *)

(** Slot 1 is occupied only if slot 0 is: the slots holding a function
    come first. *)
Definition prefix_closed (L : Logger) : Prop :=
  ∀ i j cb, (i < j)%nat → callbacks L !! j = Some cb → fn cb ≠ None →
    ∃ cb', callbacks L !! i = Some cb' ∧ fn cb' ≠ None.

(** The event a sink bound to [u] receives from a [log_log] call. *)
Definition event_for (now : tm) (lvl : Z) (file : string) (line : Z)
    (fmt : string) (ap : va_list) (u : ptr) : log_Event :=
  mkEvent ap fmt file (Some now) u line lvl.

(** The local [ev] of a [log_log] call while no sink has written to it:
    the four fields of its initialiser, and a [time] that is null or the
    clock value read. *)
Definition call_event (now : tm) (lvl : Z) (file : string) (line : Z)
    (fmt : string) (ev : log_Event) : Prop :=
  ev_fmt ev = fmt ∧ ev_file ev = file ∧ ev_line ev = line ∧
  ev_level ev = lvl ∧ (ev_time ev = None ∨ ev_time ev = Some now).

(** What the loop body adds for a slot: [l] when the call's level reaches
    the slot's threshold. *)
Definition gated {B : Type} (lvl : Z) (cb : Callback) (l : list B) : list B :=
  if level cb <=? lvl then l else [].

(** The callback part of a [log_log] call: the loop run from the fresh
    local. It reads [callbacks L] only. *)
Definition dispatch (W : sink_writes) (now : tm) (lvl : Z) (file : string)
    (line : Z) (fmt : string) (ap : va_list) (L : Logger) : list call :=
  (callbacks_from (log_body W now lvl ap) MAX_CALLBACKS 0 L
     (mkEvent [] fmt file None NULL line lvl, [])).2.

(** The slot and the callback a call goes through; the console sink has
    none. *)
Definition callee_of (c : call) : option (nat * Callback) :=
  match c with CallStdout _ => None | CallCb i cb _ => Some (i, cb) end.

(** The callbacks a log call at [lvl] calls, with their slots, in order. *)
Definition callees (lvl : Z) (L : Logger) : list (nat * Callback) :=
  callbacks_from (λ i cb acc, acc ++ gated lvl cb [(i, cb)])
    MAX_CALLBACKS 0 L [].

(** No sink registered in [L] writes to the event it is handed. *)
Definition read_only (W : sink_writes) (L : Logger) : Prop :=
  ∀ j cb a, callbacks L !! j = Some cb → fn cb = Some (user_fn a) →
    ∀ ev, W a ev = ev.

(** The callback calls of a log call when no sink writes to the event:
    each sink whose threshold is reached receives the event of the call
    with its own user data. *)
Definition delivered (now : tm) (lvl : Z) (file : string) (line : Z)
    (fmt : string) (ap : va_list) (L : Logger) : list call :=
  callbacks_from
    (λ i cb acc,
       acc ++ gated lvl cb
                [CallCb i cb (event_for now lvl file line fmt ap (udata cb))])
    MAX_CALLBACKS 0 L [].

(** Two states that differ at most in the global level, the quiet flag,
    [L.udata] and the thresholds of the slots other than [i]: slot [i] is
    the same, and every slot has the same function and user data. *)
Definition differ_only_outside (i : nat) (L1 L2 : Logger) : Prop :=
  callbacks L1 !! i = callbacks L2 !! i ∧
  ∀ j, fn <$> callbacks L1 !! j = fn <$> callbacks L2 !! j ∧
       udata <$> callbacks L1 !! j = udata <$> callbacks L2 !! j.

(** A [struct tm] as [localtime] yields it, with a four-digit year. *)
Definition tm_ok (t : tm) : Prop :=
  0 ≤ tm_sec t ≤ 60 ∧ 0 ≤ tm_min t ≤ 59 ∧ 0 ≤ tm_hour t ≤ 23 ∧
  1 ≤ tm_mday t ≤ 31 ∧ 0 ≤ tm_mon t ≤ 11 ∧ 1000 ≤ tm_year t + 1900 ≤ 9999.

(** [HH:MM:SS] *)
Definition hms (t : tm) : string :=
  (two_digits (tm_hour t) +:+ ":" +:+ two_digits (tm_min t) +:+ ":" +:+
   two_digits (tm_sec t))%string.

(** [YYYY-MM-DD HH:MM:SS] *)
Definition ymd_hms (t : tm) : string :=
  (string_of_Z (tm_year t + 1900) +:+ "-" +:+ two_digits (tm_mon t + 1) +:+ "-"
   +:+ two_digits (tm_mday t) +:+ " " +:+ hms t)%string.

(** What precedes the message on a console line: [HH:MM:SS LEVEL file:line: ],
    the level tag and [file:line:] wrapped in colour escapes under
    [LOG_USE_COLOR]. *)
Definition console_head (color : bool) (t : tm) (lv : string)
    (ev : log_Event) : string :=
  if color
  then (hms t +:+ " " +:+ default ""%string (index level_colors (ev_level ev))
          +:+ pad_right 5 lv +:+ String ESC "[0m" +:+ " " +:+ String ESC "[90m"
          +:+ ev_file ev +:+ ":" +:+ string_of_Z (ev_line ev) +:+ ":"
          +:+ String ESC "[0m" +:+ " ")%string
  else (hms t +:+ " " +:+ pad_right 6 lv +:+ " " +:+ ev_file ev +:+ ":"
          +:+ string_of_Z (ev_line ev) +:+ ": ")%string.

(** What precedes the message on a file line:
    [YYYY-MM-DD HH:MM:SS LEVEL file:line: ]. *)
Definition file_head (t : tm) (lv : string) (ev : log_Event) : string :=
  (ymd_hms t +:+ " " +:+ pad_right 6 lv +:+ " " +:+ ev_file ev +:+ ":"
     +:+ string_of_Z (ev_line ev) +:+ ": ")%string.

(** An emission that hands [line] to [dest], piece by piece. *)
Definition writes_line (dest : ptr) (line : string)
    (r : option (list io_op)) : Prop :=
  ∃ ops, r = Some ops ∧ written ops = line ∧ Forall (λ o, dest_of o = dest) ops.

(** An emission that hands [line] to [dest] and ends by flushing it. *)
Definition writes_line_and_flushes (dest : ptr) (line : string)
    (r : option (list io_op)) : Prop :=
  ∃ ops, r = Some ops ∧ written ops = line ∧
    Forall (λ o, dest_of o = dest) ops ∧ flushes_last dest ops.

(** ** Sample inputs *)

(** A formatter for concrete runs: a format without conversion
    specifications is printed as it is. *)
Definition vformat_plain (fmt : string) (ap : va_list) : string := fmt.

(** Sinks of the caller that only read the event. *)
Definition W_none : sink_writes := λ _ ev, ev.

(** Sinks of the caller that set [ev->line] to -1 and [ev->level] to 5. *)
Definition W_mark : sink_writes :=
  λ _ ev, mkEvent (ev_ap ev) (ev_fmt ev) (ev_file ev) (ev_time ev) (ev_udata ev)
            (-1) 5.

(** 2024-01-03 09:05:07. *)
Definition tm_sample : tm := mkTm 7 5 9 3 0 124.

(** [log_info("ready")] at main.c:42, bound for the [File] at address 77. *)
Definition ev_sample : log_Event :=
  mkEvent [] "ready" "main.c" (Some tm_sample) 77 42 2.

(** One file sink at threshold 1 ([DEBUG]). *)
Definition L_one : Logger := (log_add_fp 77 1 L_init).1.

(** A file sink at threshold 1 and a caller's sink at threshold 4. *)
Definition L_full : Logger :=
  (log_add_callback (Some (user_fn 1)) 88 4 L_one).1.

(** As [L_full], but quiet, with the global level at 5 and the caller's
    sink at threshold 0. *)
Definition L_full' : Logger :=
  mkLogger NULL 5 true
    [mkCallback (Some file_callback_fn) 77 1; mkCallback (Some (user_fn 1)) 88 0].

(** ** Further notions: traces, operations, dates *)

(** The slot a call goes through; the console sink has none. *)
Definition slot_of (c : call) : option nat :=
  match c with CallStdout _ => None | CallCb i _ _ => Some i end.

(** The event a call hands to its callee. *)
Definition event_of (c : call) : log_Event :=
  match c with CallStdout ev | CallCb _ _ ev => ev end.

(** The user data the callee was set up with: [stderr] for the console
    sink, [cb->udata] for a callback. *)
Definition sink_udata (c : call) : ptr :=
  match c with CallStdout _ => stderr | CallCb _ cb _ => udata cb end.

(** The two setters among the operations. *)
Definition is_setter (o : op) : bool :=
  match o with Set_level _ | Set_quiet _ => true | _ => false end.

(** A registered callback whose threshold a call at [lvl] reaches. *)
Definition receives (lvl : Z) (cb : Callback) : bool :=
  registered cb && (level cb <=? lvl).

(** [YYYY-MM-DD] *)
Definition ymd (t : tm) : string :=
  (string_of_Z (tm_year t + 1900) +:+ "-" +:+ two_digits (tm_mon t + 1) +:+ "-"
   +:+ two_digits (tm_mday t))%string.

(** A list of slot indices that starts at [lo] or above and goes strictly
    up. *)
Fixpoint increasing_from (lo : nat) (l : list nat) : Prop :=
  match l with
  | [] => True
  | x :: l' => (lo ≤ x)%nat ∧ increasing_from (S x) l'
  end.

(** ** Registration: the loop of [log_add_callback] *)

Section AddCallback.

Variables (f : option LogFn) (u : ptr) (lvl : Z).

Lemma add_callback_from_ret n i L :
  (add_callback_from n i f u lvl L).2 = 0 ∨
  (add_callback_from n i f u lvl L).2 = -1.
Proof.
  revert i. induction n as [|n IH]; intros i; simpl; [by right|].
  destruct (callbacks L !! i) as [cb|]; [|by right].
  destruct (fn cb); [apply IH|by left].
Qed.

(** A failing search has written nothing. *)
Lemma add_callback_from_fail n i L :
  (add_callback_from n i f u lvl L).2 = -1 →
  (add_callback_from n i f u lvl L).1 = L.
Proof.
  revert i. induction n as [|n IH]; intros i; simpl; [done|].
  destruct (callbacks L !! i) as [cb|]; [|done].
  destruct (fn cb); [apply IH|]. simpl. lia.
Qed.

(** The search writes at most one slot, one whose [fn] is null. *)
Lemma add_callback_from_keeps n i L j cb :
  callbacks L !! j = Some cb → fn cb ≠ None →
  callbacks (add_callback_from n i f u lvl L).1 !! j = Some cb.
Proof.
  intros Hj Hcb. revert i. induction n as [|n IH]; intros i; simpl; [done|].
  destruct (callbacks L !! i) as [c|] eqn:Hi; [|done].
  destruct (fn c) eqn:Hc; [apply IH|]. simpl.
  rewrite list_lookup_insert_ne; [done|]. intros ->. congruence.
Qed.

Lemma add_callback_from_length n i L :
  length (callbacks (add_callback_from n i f u lvl L).1) = length (callbacks L).
Proof.
  revert i. induction n as [|n IH]; intros i; simpl; [done|].
  destruct (callbacks L !! i) as [c|]; [|done].
  destruct (fn c); [apply IH|]. simpl. by rewrite length_insert.
Qed.

(** Registration leaves the global level and the quiet flag alone. *)
Lemma add_callback_from_globals n i L :
  L_level (add_callback_from n i f u lvl L).1 = L_level L ∧
  L_quiet (add_callback_from n i f u lvl L).1 = L_quiet L ∧
  L_udata (add_callback_from n i f u lvl L).1 = L_udata L.
Proof.
  revert i. induction n as [|n IH]; intros i; simpl; [done|].
  destruct (callbacks L !! i) as [c|]; [|done].
  destruct (fn c); [apply IH|done].
Qed.

End AddCallback.

(** ** Reachable states *)

(** Every operation keeps the array at its two slots. *)
Lemma step_length msc o L :
  length (callbacks (step msc o L).1) = length (callbacks L).
Proof.
  destruct o; simpl; try done.
  - apply add_callback_from_length.
  - apply add_callback_from_length.
  - unfold log_init. destruct msc; [apply add_callback_from_length|done].
Qed.

Lemma reachable_length msc L :
  reachable msc L → length (callbacks L) = MAX_CALLBACKS.
Proof.
  induction 1 as [|o L _ IH]; [done|]. by rewrite step_length.
Qed.

Lemma two_slots (L : Logger) :
  length (callbacks L) = MAX_CALLBACKS → ∃ c0 c1, callbacks L = [c0; c1].
Proof.
  destruct (callbacks L) as [|c0 [|c1 [|c2 l]]]; try done. eauto.
Qed.

(** [log_add_callback] on the two slots, loop unrolled. *)
Lemma log_add_callback_two f u lvl L c0 c1 :
  callbacks L = [c0; c1] →
  log_add_callback f u lvl L =
    match fn c0, fn c1 with
    | None, _ => (set_callback 0 (mkCallback f u lvl) L, 0)
    | Some _, None => (set_callback 1 (mkCallback f u lvl) L, 0)
    | Some _, Some _ => (L, -1)
    end.
Proof.
  intros Hcs. unfold log_add_callback; simpl. rewrite Hcs; simpl.
  by destruct (fn c0), (fn c1).
Qed.

Lemma add_callback_prefix_closed f u lvl L :
  length (callbacks L) = MAX_CALLBACKS → prefix_closed L →
  prefix_closed (log_add_callback f u lvl L).1.
Proof.
  intros Hlen Hpre. destruct (two_slots L Hlen) as (c0 & c1 & Hcs).
  assert (H01 : fn c1 ≠ None → fn c0 ≠ None).
  { intros H1. destruct (Hpre 0%nat 1%nat c1) as (c & Hc & Hn); try done.
    - lia.
    - by rewrite Hcs.
    - rewrite Hcs in Hc. by simplify_eq/=. }
  rewrite (log_add_callback_two f u lvl L c0 c1 Hcs).
  intros i j cb Hij Hj Hcb.
  destruct j as [|[|j]]; [lia| |].
  - destruct i as [|i]; [|lia].
    destruct (fn c0) eqn:H0; [destruct (fn c1) eqn:H1|]; simpl in *;
      rewrite Hcs in *; simpl in *; simplify_eq.
    + exists c0. split; [done|congruence].
    + exists c0. split; [done|congruence].
    + exfalso. by apply H01.
  - destruct (fn c0) eqn:H0; [destruct (fn c1) eqn:H1|]; simpl in *;
      rewrite Hcs in *; simpl in *; simplify_eq.
Qed.

Lemma step_prefix_closed msc o L :
  length (callbacks L) = MAX_CALLBACKS → prefix_closed L →
  prefix_closed (step msc o L).1.
Proof.
  intros Hlen Hpre. destruct o; simpl; try done.
  - by apply add_callback_prefix_closed.
  - by apply add_callback_prefix_closed.
  - unfold log_init. destruct msc; [by apply add_callback_prefix_closed|done].
Qed.

Lemma reachable_prefix_closed msc L : reachable msc L → prefix_closed L.
Proof.
  induction 1 as [|o L HL IH].
  - intros i j cb _ Hj Hcb. destruct j as [|[|j]]; simpl in Hj; by simplify_eq.
  - apply step_prefix_closed; [by eapply reachable_length|done].
Qed.

Lemma count_registered_two L c0 c1 :
  callbacks L = [c0; c1] →
  count_registered L =
    ((if registered c0 then 1 else 0) + (if registered c1 then 1 else 0))%nat.
Proof.
  intros Hcs. unfold count_registered. rewrite Hcs.
  rewrite !filter_cons, filter_nil.
  by destruct (registered c0), (registered c1).
Qed.

(** The shape of a reachable state: two slots, the occupied ones first. *)
Lemma reachable_shape msc L :
  reachable msc L →
  ∃ c0 c1, callbacks L = [c0; c1] ∧ (fn c1 ≠ None → fn c0 ≠ None).
Proof.
  intros HL. destruct (two_slots L (reachable_length msc L HL)) as (c0 & c1 & Hcs).
  exists c0, c1. split; [done|]. intros H1.
  destruct (reachable_prefix_closed msc L HL 0%nat 1%nat c1) as (c & Hc & Hn);
    [lia|by rewrite Hcs|done|].
  rewrite Hcs in Hc. by simplify_eq/=.
Qed.

(** A result other than 0 is -1, comes from a full array, and nothing was
    written. *)
Lemma log_add_callback_nonzero msc L f u lvl :
  reachable msc L → (log_add_callback f u lvl L).2 ≠ 0 →
  (log_add_callback f u lvl L).2 = -1 ∧
  count_registered L = MAX_CALLBACKS ∧
  (log_add_callback f u lvl L).1 = L.
Proof.
  intros HL. destruct (reachable_shape msc L HL) as (c0 & c1 & Hcs & H01).
  rewrite (log_add_callback_two f u lvl L c0 c1 Hcs),
    (count_registered_two L c0 c1 Hcs). unfold registered.
  by destruct (fn c0), (fn c1).
Qed.

(** What [log_add_callback] does by the number of registered callbacks. *)
Lemma add_callback_capacity_cases msc L f u lvl :
  reachable msc L →
  ((count_registered L < MAX_CALLBACKS)%nat →
     log_add_callback f u lvl L =
       (set_callback (count_registered L) (mkCallback f u lvl) L, 0)) ∧
  (count_registered L = MAX_CALLBACKS → log_add_callback f u lvl L = (L, -1)).
Proof.
  intros HL. destruct (reachable_shape msc L HL) as (c0 & c1 & Hcs & H01).
  rewrite (log_add_callback_two f u lvl L c0 c1 Hcs),
    (count_registered_two L c0 c1 Hcs). unfold registered, MAX_CALLBACKS.
  split; destruct (fn c0) eqn:H0, (fn c1) eqn:H1; simpl; intros Hlt;
    try lia; try done; exfalso; by apply H01.
Qed.

(** An operation leaves every registered slot as it is. *)
Lemma step_keeps msc o L i cb :
  callbacks L !! i = Some cb → fn cb ≠ None →
  callbacks (step msc o L).1 !! i = Some cb.
Proof.
  intros Hi Hcb. destruct o; simpl; try done.
  - by apply add_callback_from_keeps.
  - by apply add_callback_from_keeps.
  - unfold log_init. destruct msc; [by apply add_callback_from_keeps|done].
Qed.

(** ** Properties of registration *)

(** C8. [log_add_callback] is atomic on failure: whenever it returns -1,
    the whole logger state (global level, quiet flag, every callback slot)
    is the state before the call. *)
Theorem C8_add_callback_failure_atomic (f : option LogFn) (u : ptr) (lvl : Z)
    (L : Logger) :
  (log_add_callback f u lvl L).2 = -1 → (log_add_callback f u lvl L).1 = L.
Proof. apply add_callback_from_fail. Qed.

Lemma C8_witness :
  (log_add_callback (Some (user_fn 2)) 99 0 L_full).2 = -1 ∧
  (log_add_callback (Some (user_fn 2)) 99 0 L_full).1 = L_full.
Proof.
  split; [reflexivity|].
  apply (C8_add_callback_failure_atomic (Some (user_fn 2)) 99 0 L_full).
  reflexivity.
Defined.

(** C7. The registration list is append-only: whatever the state (so in
    every reachable one) and whatever the operation ([log_set_level],
    [log_set_quiet], [log_add_callback], [log_add_fp], [log_init],
    [log_log]), a registered callback, that is a slot whose function
    pointer is not null, holds the same (function, user data, level) triple
    in the same slot afterwards; so it does after any sequence of
    operations. *)
Theorem C7_registrations_append_only (msc : bool) (L : Logger)
    (i : nat) (cb : Callback) :
  callbacks L !! i = Some cb → fn cb ≠ None →
  (∀ o, callbacks (step msc o L).1 !! i = Some cb) ∧
  (∀ os, callbacks (run msc os L) !! i = Some cb).
Proof.
  intros Hi Hcb. split; [intros o; by apply step_keeps|].
  intros os. revert L Hi. induction os as [|o os IH]; intros L Hi; [done|].
  apply IH. by apply step_keeps.
Qed.

Lemma C7_witness :
  callbacks (step false (Add_callback (Some (user_fn 1)) 88 4) L_one).1 !! 0%nat
  = Some (mkCallback (Some file_callback_fn) 77 1) ∧
  callbacks (run false [Add_callback None 99 0; Set_quiet true; Add_fp 55 0;
                        Add_fp 56 0] L_one) !! 0%nat
  = Some (mkCallback (Some file_callback_fn) 77 1).
Proof.
  destruct (C7_registrations_append_only false L_one 0
              (mkCallback (Some file_callback_fn) 77 1)) as [Hstep Hrun].
  - reflexivity.
  - simpl. discriminate.
  - split; [apply Hstep|apply Hrun].
Defined.

(** C3. In a reachable state with fewer than two callbacks registered,
    [log_add_callback] returns 0 and appends: it writes the triple into the
    slot just after the registered ones and nothing else. With two
    callbacks registered it returns -1. No operation of the interface
    returns anything but 0 in any other way: a non-zero result is -1, comes
    from a full array, and leaves the state as it was. *)
Theorem C3_add_callback_capacity (msc : bool) (L : Logger)
    (f : option LogFn) (u : ptr) (lvl : Z) :
  reachable msc L →
  ((count_registered L < MAX_CALLBACKS)%nat →
     log_add_callback f u lvl L =
       (set_callback (count_registered L) (mkCallback f u lvl) L, 0) ∧
     callbacks (log_add_callback f u lvl L).1 !! count_registered L =
       Some (mkCallback f u lvl)) ∧
  (count_registered L = MAX_CALLBACKS →
     log_add_callback f u lvl L = (L, -1)) ∧
  (∀ o r, (step msc o L).2 = Some r → r ≠ 0 →
     r = -1 ∧ count_registered L = MAX_CALLBACKS ∧ (step msc o L).1 = L).
Proof.
  intros HL. split_and!.
  - destruct (reachable_shape msc L HL) as (c0 & c1 & Hcs & H01).
    rewrite (log_add_callback_two f u lvl L c0 c1 Hcs),
      (count_registered_two L c0 c1 Hcs). unfold registered.
    unfold MAX_CALLBACKS.
    destruct (fn c0) eqn:H0, (fn c1) eqn:H1; simpl; intros Hlt;
      try lia; try (exfalso; by apply H01);
      (split; [done|by rewrite Hcs]).
  - destruct (reachable_shape msc L HL) as (c0 & c1 & Hcs & H01).
    rewrite (log_add_callback_two f u lvl L c0 c1 Hcs),
      (count_registered_two L c0 c1 Hcs). unfold registered.
    unfold MAX_CALLBACKS. destruct (fn c0), (fn c1); simpl; intros Hlt; done.
  - intros o r Hr Hnz. destruct o; simpl in Hr; simplify_eq; simpl.
    + by apply (log_add_callback_nonzero msc).
    + by apply (log_add_callback_nonzero msc).
    + unfold log_init in *. destruct msc; [|done].
      by apply (log_add_callback_nonzero true).
Qed.

Lemma reachable_L_one : reachable false L_one.
Proof. exact (reachable_step false (Add_fp 77 1) L_init (reachable_init false)). Qed.

Lemma reachable_L_full : reachable false L_full.
Proof.
  exact (reachable_step false (Add_callback (Some (user_fn 1)) 88 4) L_one
           reachable_L_one).
Qed.

Lemma C3_witness :
  log_add_callback (Some (user_fn 1)) 88 4 L_one = (L_full, 0) ∧
  log_add_callback (Some (user_fn 2)) 99 0 L_full = (L_full, -1).
Proof.
  split.
  - destruct (C3_add_callback_capacity false L_one (Some (user_fn 1)) 88 4
                reachable_L_one) as [Hfree _].
    destruct Hfree as [Heq _]; [vm_compute; lia|]. rewrite Heq. reflexivity.
  - destruct (C3_add_callback_capacity false L_full (Some (user_fn 2)) 99 0
                reachable_L_full) as (_ & Hfull & _).
    apply Hfull. reflexivity.
Defined.

(** ** Dispatch: the loop of [log_log] *)

(** The loop header runs its body on a slot exactly when that slot and all
    the slots before it hold a function. *)
Lemma callbacks_from_elem {B : Type} (g : nat → Callback → list B)
    (n i0 : nat) (L : Logger) (t : list B) (x : B) :
  x ∈ callbacks_from (λ i cb acc, acc ++ g i cb) n i0 L t ↔
  x ∈ t ∨
  ∃ i cb, x ∈ g i cb ∧ (i0 ≤ i < i0 + n)%nat ∧ callbacks L !! i = Some cb ∧
    ∀ j, (i0 ≤ j ≤ i)%nat → ∃ c, callbacks L !! j = Some c ∧ fn c ≠ None.
Proof.
  revert i0 t. induction n as [|n IH]; intros i0 t; simpl.
  { split; [by left|]. intros [?|(i & cb & _ & ? & _)]; [done|lia]. }
  destruct (callbacks L !! i0) as [c0|] eqn:H0.
  2:{ split; [by left|]. intros [?|(i & cb & _ & Hi & _ & Hall)]; [done|].
      destruct (Hall i0) as (c & Hc & _); [lia|congruence]. }
  destruct (fn c0) as [f0|] eqn:Hf0.
  2:{ split; [by left|]. intros [?|(i & cb & _ & Hi & _ & Hall)]; [done|].
      destruct (Hall i0) as (c & Hc & Hn); [lia|]. congruence. }
  rewrite IH, elem_of_app. split.
  - intros [[Ht|Hg]|(i & cb & Hx & Hi & Hcb & Hall)].
    + by left.
    + right. exists i0, c0. split; [done|split; [lia|split; [done|]]].
      intros j Hj. assert (j = i0) as -> by lia. exists c0. split; congruence.
    + right. exists i, cb. split; [done|split; [lia|split; [done|]]].
      intros j Hj. destruct (decide (j = i0)) as [->|Hne].
      * exists c0. split; congruence.
      * apply Hall. lia.
  - intros [Ht|(i & cb & Hx & Hi & Hcb & Hall)]; [by left; left|].
    destruct (decide (i = i0)) as [->|Hne].
    + left; right. congruence.
    + right. exists i, cb. split; [done|split; [lia|split; [done|]]].
      intros j Hj. apply Hall. lia.
Qed.

Lemma callbacks_from_acc {B : Type} (g : nat → Callback → list B) n i L t :
  callbacks_from (λ i cb acc, acc ++ g i cb) n i L t =
  t ++ callbacks_from (λ i cb acc, acc ++ g i cb) n i L [].
Proof.
  revert i t. induction n as [|n IH]; intros i t; simpl;
    [by rewrite app_nil_r|].
  destruct (callbacks L !! i) as [cb|]; [|by rewrite app_nil_r].
  destruct (fn cb); [|by rewrite app_nil_r].
  rewrite (IH _ (t ++ g i cb)), (IH _ ([] ++ g i cb)). by rewrite app_assoc.
Qed.

Section Dispatch.

Variables (W : sink_writes) (now : tm) (lvl : Z) (file : string) (line : Z)
          (fmt : string) (ap : va_list).

(** The calls made so far do not steer the loop. *)
Lemma log_loop_acc n i L ev t :
  callbacks_from (log_body W now lvl ap) n i L (ev, t) =
  ((callbacks_from (log_body W now lvl ap) n i L (ev, [])).1,
   t ++ (callbacks_from (log_body W now lvl ap) n i L (ev, [])).2).
Proof.
  revert i ev t. induction n as [|n IH]; intros i ev t; simpl;
    [by rewrite app_nil_r|].
  destruct (callbacks L !! i) as [cb|]; [|by rewrite app_nil_r].
  destruct (fn cb) as [f|]; [|by rewrite app_nil_r].
  unfold log_body; simpl. destruct (level cb <=? lvl).
  - rewrite (IH _ _ (t ++ _)), (IH _ _ ([_])); simpl. by rewrite <- app_assoc.
  - apply IH.
Qed.

(** Where the local [ev] stands when the loop starts matters only through
    what [init_event] and [va_start] make of it. *)
Lemma log_loop_start n i L ev1 ev2 t :
  (∀ u, va_start ap (init_event now ev1 u) = va_start ap (init_event now ev2 u)) →
  (callbacks_from (log_body W now lvl ap) n i L (ev1, t)).2 =
  (callbacks_from (log_body W now lvl ap) n i L (ev2, t)).2.
Proof.
  intros Hsame. revert i t. induction n as [|n IH]; intros i t; simpl; [done|].
  destruct (callbacks L !! i) as [cb|]; [|done].
  destruct (fn cb) as [f|]; [|done].
  unfold log_body; simpl. destruct (level cb <=? lvl); [|apply IH].
  by rewrite (Hsame (udata cb)).
Qed.

(** A [log_log] call is its console part followed by its callbacks. *)
Lemma log_log_split L :
  log_log W now lvl file line fmt ap L =
  (log_console now lvl ap L (mkEvent [] fmt file None NULL line lvl)).2 ++
  dispatch W now lvl file line fmt ap L.
Proof.
  unfold log_log, dispatch, log_console.
  destruct (negb (L_quiet L) && (L_level L <=? lvl)); cbv zeta.
  - rewrite log_loop_acc. cbn [snd app]. f_equal. by apply log_loop_start.
  - done.
Qed.

(** A property of every call the loop can record holds of its trace. *)
Lemma log_loop_forall (P : call → Prop) n i L ev t :
  (∀ j cb ev0, P (CallCb j cb (va_start ap (init_event now ev0 (udata cb))))) →
  Forall P t →
  Forall P (callbacks_from (log_body W now lvl ap) n i L (ev, t)).2.
Proof.
  intros HP. revert i ev t. induction n as [|n IH]; intros i ev t Ht; simpl;
    [done|].
  destruct (callbacks L !! i) as [cb|]; [|done].
  destruct (fn cb) as [f|]; [|done].
  unfold log_body; simpl. destruct (level cb <=? lvl); [|by apply IH].
  apply IH, Forall_app. split; [done|]. constructor; [apply HP|constructor].
Qed.

(** What a projection that forgets the event sees of the loop. *)
Lemma log_loop_omap {B : Type} (p : call → option B) (q : nat → Callback → B)
    n i L ev :
  (∀ j cb ev0, p (CallCb j cb ev0) = Some (q j cb)) →
  omap p (callbacks_from (log_body W now lvl ap) n i L (ev, [])).2 =
  callbacks_from (λ j cb acc, acc ++ gated lvl cb [q j cb]) n i L [].
Proof.
  intros Hp. revert i ev. induction n as [|n IH]; intros i ev; simpl; [done|].
  destruct (callbacks L !! i) as [cb|]; [|done].
  destruct (fn cb) as [f|]; [|done].
  unfold log_body, gated; simpl. destruct (level cb <=? lvl).
  - rewrite log_loop_acc; simpl. rewrite Hp, IH.
    by rewrite (callbacks_from_acc _ _ _ _ [q i cb]).
  - apply IH.
Qed.

Lemma dispatch_callees L :
  omap callee_of (dispatch W now lvl file line fmt ap L) = callees lvl L.
Proof. unfold dispatch, callees. by apply log_loop_omap. Qed.

Lemma dispatch_no_stdout L :
  Forall (λ c, is_stdout c = false) (dispatch W now lvl file line fmt ap L).
Proof. unfold dispatch. by apply log_loop_forall. Qed.

(** Whatever the sinks before it wrote, a callback finds in the event its
    own user data, the arguments of the log call and a time. *)
Lemma dispatch_event L i cb ev :
  CallCb i cb ev ∈ dispatch W now lvl file line fmt ap L →
  ev_udata ev = udata cb ∧ ev_ap ev = ap ∧ ev_time ev ≠ None.
Proof.
  intros Hin.
  assert (Forall (λ c, match c with
                       | CallCb _ cb ev =>
                           ev_udata ev = udata cb ∧ ev_ap ev = ap ∧
                           ev_time ev ≠ None
                       | CallStdout _ => True
                       end) (dispatch W now lvl file line fmt ap L)) as Hall.
  { unfold dispatch. apply log_loop_forall; [|done].
    intros j cb0 ev0. split; [done|split; [done|]]. simpl.
    by destruct (ev_time ev0). }
  rewrite list.Forall_forall in Hall. exact (Hall _ Hin).
Qed.

(** The callbacks called are those of the slots the loop reaches whose
    threshold the level reaches. *)
Lemma elem_of_callees L i cb :
  (i, cb) ∈ callees lvl L ↔
  level cb ≤ lvl ∧ (i < MAX_CALLBACKS)%nat ∧ callbacks L !! i = Some cb ∧
  ∀ j, (j ≤ i)%nat → ∃ c', callbacks L !! j = Some c' ∧ fn c' ≠ None.
Proof.
  unfold callees. rewrite callbacks_from_elem. unfold gated. split.
  - intros [H|(j & c & Hx & Hj & Hc & Hall)]; [by apply elem_of_nil in H|].
    destruct (Z.leb_spec (level c) lvl); [|by apply elem_of_nil in Hx].
    apply list_elem_of_singleton in Hx. simplify_eq.
    split; [done|split; [lia|split; [done|]]]. intros k Hk. apply Hall. lia.
  - intros (Hle & Hi & Hcb & Hall). right. exists i, cb.
    split; [|split; [lia|split; [done|]]].
    + destruct (Z.leb_spec (level cb) lvl); [|lia]. by apply list_elem_of_singleton.
    + intros k Hk. apply Hall. lia.
Qed.

Lemma calls_dispatch L i cb :
  calls i cb (dispatch W now lvl file line fmt ap L) ↔ (i, cb) ∈ callees lvl L.
Proof.
  rewrite <- dispatch_callees, list_elem_of_omap. split.
  - intros [ev Hin]. by exists (CallCb i cb ev).
  - intros ([ev|j c ev] & Hin & Heq); simpl in Heq; simplify_eq. by exists ev.
Qed.

(** While no sink has written to it, the local [ev] gives every sink the
    event of the call. *)
Lemma init_event_call_event ev u :
  call_event now lvl file line fmt ev →
  va_start ap (init_event now ev u) = event_for now lvl file line fmt ap u.
Proof.
  destruct ev as [a f fl t ud ln lv].
  unfold call_event, init_event, va_start; simpl.
  intros (? & ? & ? & ? & [Ht|Ht]); by subst.
Qed.

Lemma call_event_event_for u :
  call_event now lvl file line fmt (event_for now lvl file line fmt ap u).
Proof. unfold call_event; simpl. naive_solver. Qed.

Lemma after_call_read_only L j cb ev :
  read_only W L → callbacks L !! j = Some cb → after_call W (fn cb) ev = ev.
Proof.
  intros Hro Hcb. unfold after_call.
  destruct (fn cb) as [[| |a]|] eqn:Hfn; try done. by apply (Hro j cb a).
Qed.

Lemma log_loop_delivered n i L ev t :
  read_only W L → call_event now lvl file line fmt ev →
  (callbacks_from (log_body W now lvl ap) n i L (ev, t)).2 =
  callbacks_from
    (λ i cb acc,
       acc ++ gated lvl cb
                [CallCb i cb (event_for now lvl file line fmt ap (udata cb))])
    n i L t.
Proof.
  intros Hro. revert i ev t. induction n as [|n IH]; intros i ev t Hev; simpl;
    [done|].
  destruct (callbacks L !! i) as [cb|] eqn:Hcb; [|done].
  destruct (fn cb) as [f|] eqn:Hfn; [|done].
  unfold log_body, gated; simpl. destruct (level cb <=? lvl).
  - rewrite (init_event_call_event ev _ Hev).
    rewrite (after_call_read_only L i cb _ Hro Hcb).
    apply IH, call_event_event_for.
  - rewrite app_nil_r. by apply IH.
Qed.

(** With sinks that only read the event, the callback part of a log call
    is [delivered]. *)
Lemma dispatch_read_only L :
  read_only W L →
  dispatch W now lvl file line fmt ap L = delivered now lvl file line fmt ap L.
Proof.
  intros Hro. unfold dispatch, delivered. apply log_loop_delivered; [done|].
  unfold call_event; simpl. naive_solver.
Qed.

Lemma elem_of_delivered L c :
  c ∈ delivered now lvl file line fmt ap L ↔
  ∃ i cb, c = CallCb i cb (event_for now lvl file line fmt ap (udata cb)) ∧
    level cb ≤ lvl ∧ (i < MAX_CALLBACKS)%nat ∧ callbacks L !! i = Some cb ∧
    ∀ j, (j ≤ i)%nat → ∃ c', callbacks L !! j = Some c' ∧ fn c' ≠ None.
Proof.
  unfold delivered. rewrite callbacks_from_elem. unfold gated. split.
  - intros [H|(i & cb & Hx & Hi & Hcb & Hall)]; [by apply elem_of_nil in H|].
    destruct (Z.leb_spec (level cb) lvl); [|by apply elem_of_nil in Hx].
    apply list_elem_of_singleton in Hx. exists i, cb.
    split; [done|split; [done|split; [lia|split; [done|]]]].
    intros j Hj. apply Hall. lia.
  - intros (i & cb & -> & Hle & Hi & Hcb & Hall). right. exists i, cb.
    split; [|split; [lia|split; [done|]]].
    + destruct (Z.leb_spec (level cb) lvl); [|lia]. by apply list_elem_of_singleton.
    + intros j Hj. apply Hall. lia.
Qed.

End Dispatch.

(** ** The two parts of a trace *)

Section Projections.

Variables (W : sink_writes) (now : tm) (lvl : Z) (file : string) (line : Z)
          (fmt : string) (ap : va_list).

Lemma filter_stdout_dispatch L :
  filter is_stdout (dispatch W now lvl file line fmt ap L) = [].
Proof.
  pose proof (dispatch_no_stdout W now lvl file line fmt ap L) as H.
  induction H as [|c l Hc _ IH]; [done|].
  rewrite filter_cons, IH. destruct (decide (is_stdout c)) as [Hs|]; [|done].
  by rewrite Hc in Hs.
Qed.

Lemma filter_callback_dispatch L :
  filter (λ c, negb (is_stdout c)) (dispatch W now lvl file line fmt ap L) =
  dispatch W now lvl file line fmt ap L.
Proof.
  pose proof (dispatch_no_stdout W now lvl file line fmt ap L) as H.
  induction H as [|c l Hc _ IH]; [done|].
  rewrite filter_cons, IH. destruct (decide (negb (is_stdout c))) as [|Hs]; [done|].
  by rewrite Hc in Hs.
Qed.

Lemma console_calls_log_log L :
  console_calls (log_log W now lvl file line fmt ap L) =
  if negb (L_quiet L) && (L_level L <=? lvl)
  then [CallStdout (event_for now lvl file line fmt ap stderr)] else [].
Proof.
  unfold console_calls. rewrite log_log_split, list.filter_app, filter_stdout_dispatch.
  unfold log_console. by destruct (negb (L_quiet L) && (L_level L <=? lvl)).
Qed.

Lemma callback_calls_log_log L :
  callback_calls (log_log W now lvl file line fmt ap L) =
  dispatch W now lvl file line fmt ap L.
Proof.
  unfold callback_calls. rewrite log_log_split, list.filter_app, filter_callback_dispatch.
  unfold log_console. by destruct (negb (L_quiet L) && (L_level L <=? lvl)).
Qed.

Lemma console_on_iff L :
  negb (L_quiet L) && (L_level L <=? lvl) = true ↔
  L_quiet L = false ∧ L_level L ≤ lvl.
Proof.
  rewrite andb_true_iff, negb_true_iff, Z.leb_le. done.
Qed.

(** A callback is called exactly through [dispatch]. *)
Lemma elem_of_log_log_cb L i cb ev :
  CallCb i cb ev ∈ log_log W now lvl file line fmt ap L ↔
  CallCb i cb ev ∈ dispatch W now lvl file line fmt ap L.
Proof.
  rewrite log_log_split, elem_of_app. unfold log_console.
  destruct (negb (L_quiet L) && (L_level L <=? lvl)); simpl.
  - rewrite list_elem_of_singleton. split; [by intros [?|?]|by right].
  - rewrite elem_of_nil. split; [by intros [?|?]|by right].
Qed.

(** The callback of slot [i] is called when the loop reaches the slot and
    the level reaches its threshold. *)
Lemma calls_log_log L i cb :
  calls i cb (log_log W now lvl file line fmt ap L) ↔
  level cb ≤ lvl ∧ (i < MAX_CALLBACKS)%nat ∧ callbacks L !! i = Some cb ∧
  ∀ j, (j ≤ i)%nat → ∃ c', callbacks L !! j = Some c' ∧ fn c' ≠ None.
Proof.
  rewrite <- (elem_of_callees lvl L i cb), <- (calls_dispatch W now lvl file line fmt ap).
  unfold calls. split; intros [ev Hin]; exists ev; by apply elem_of_log_log_cb.
Qed.

End Projections.
(** The console sink, once called, writes to its stream. *)
Lemma stdout_callback_ops vformat color ev ops :
  stdout_callback vformat color ev = Some ops →
  ops ≠ [] ∧ Forall (λ o, dest_of o = ev_udata ev) ops ∧
  flushes_last (ev_udata ev) ops.
Proof.
  unfold stdout_callback. intros H.
  destruct (ev_time ev); simpl in H; [|done].
  destruct (index level_strings (ev_level ev)); simpl in H; [|done].
  destruct color; [destruct (index level_colors (ev_level ev))|];
    simpl in H; simplify_eq; (split; [done|split; [by repeat constructor|done]]).
Qed.

Lemma index_level_strings lvl :
  0 ≤ lvl ≤ 5 → is_Some (index level_strings lvl) ∧ is_Some (index level_colors lvl).
Proof.
  intros H. assert (lvl = 0 ∨ lvl = 1 ∨ lvl = 2 ∨ lvl = 3 ∨ lvl = 4 ∨ lvl = 5)
    as Hc by lia.
  destruct Hc as [->|[->|[->|[->|[->| ->]]]]]; split; by eexists.
Qed.

(** ** Properties of dispatch *)

(** C1. The default console sink is called by a log call if and only if
    the quiet flag is false and the call's level is greater than or equal
    to the global level; otherwise the call writes nothing to the console
    stream, and when called at one of the six levels the sink does write.
    In particular a call at level [lvl] is suppressed under any global
    level [l2] above [lvl]. *)
Theorem C1_console_sink_threshold (W : sink_writes) (L : Logger) (now : tm)
    (lvl : Z) (file : string) (line : Z) (fmt : string) (ap : va_list) :
  let t := log_log W now lvl file line fmt ap L in
  (console_calls t = [CallStdout (event_for now lvl file line fmt ap stderr)] ↔
     L_quiet L = false ∧ L_level L ≤ lvl) ∧
  (console_calls t = [] ↔ ¬ (L_quiet L = false ∧ L_level L ≤ lvl)) ∧
  (∀ vformat color,
     console_output vformat color t = Some [] ↔
     ¬ (L_quiet L = false ∧ L_level L ≤ lvl)) ∧
  (∀ vformat color, 0 ≤ lvl ≤ 5 → L_quiet L = false → L_level L ≤ lvl →
     ∃ ops, console_output vformat color t = Some ops ∧ ops ≠ [] ∧
       Forall (λ o, dest_of o = stderr) ops) ∧
  (∀ l2, lvl < l2 →
     let t2 := log_log W now lvl file line fmt ap (log_set_level l2 L) in
     console_calls t2 = [] ∧
     ∀ vformat color, console_output vformat color t2 = Some []).
Proof.
  cbv zeta. split; [|split; [|split; [|split]]].
  - rewrite console_calls_log_log, <- console_on_iff.
    by destruct (negb (L_quiet L) && (L_level L <=? lvl)).
  - rewrite console_calls_log_log, <- console_on_iff.
    by destruct (negb (L_quiet L) && (L_level L <=? lvl)).
  - intros vformat color. unfold console_output.
    rewrite console_calls_log_log, <- console_on_iff.
    destruct (negb (L_quiet L) && (L_level L <=? lvl)); simpl;
      [|split; [by intros _ ?|done]].
    split; [|intros H; by destruct H]. intros H.
    destruct (stdout_callback vformat color _) as [ops|] eqn:Hops; simpl in H; [|done].
    apply stdout_callback_ops in Hops as [Hne _]. rewrite app_nil_r in H. congruence.
  - intros vformat color Hlvl Hq Hle. unfold console_output.
    rewrite console_calls_log_log.
    replace (negb (L_quiet L) && (L_level L <=? lvl)) with true
      by (symmetry; by apply console_on_iff).
    simpl. destruct (index_level_strings lvl Hlvl) as [[lv Hlv] [col Hcol]].
    destruct (stdout_callback vformat color _) as [ops|] eqn:Hops; simpl.
    + apply stdout_callback_ops in Hops as (Hne & Hdest & _).
      exists ops. by rewrite app_nil_r.
    + unfold stdout_callback in Hops; simpl in Hops.
      rewrite Hlv, Hcol in Hops. by destruct color.
  - intros l2 Hlt.
    assert (console_calls (log_log W now lvl file line fmt ap (log_set_level l2 L)) = []) as Hc.
    { rewrite console_calls_log_log; simpl.
      replace (l2 <=? lvl) with false by (symmetry; apply Z.leb_gt; lia).
      by rewrite andb_false_r. }
    split; [done|]. intros vformat color. unfold console_output. by rewrite Hc.
Qed.

Lemma C1_witness :
  console_calls (log_log W_mark tm_sample 1 "main.c" 42 "ready" [] (log_set_level 3 L_one))
  = [].
Proof.
  destruct (C1_console_sink_threshold W_mark L_one tm_sample 1 "main.c" 42 "ready" [])
    as (_ & _ & _ & _ & Hsup).
  apply (Hsup 3). lia.
Defined.

(** C4. After [log_set_quiet(true)], and in any state whose quiet flag is
    true, the default console sink is not called and nothing is written to
    the console stream, whatever the level of the log call; the registered
    callbacks are called as they are without it: for both values of the
    flag the callback part of the trace is that of the state before the
    setter. *)
Theorem C4_quiet_suppresses_console (W : sink_writes) (L : Logger) (now : tm)
    (lvl : Z) (file : string) (line : Z) (fmt : string) (ap : va_list) :
  let t := log_log W now lvl file line fmt ap (log_set_quiet true L) in
  console_calls t = [] ∧
  (∀ vformat color, console_output vformat color t = Some []) ∧
  (L_quiet L = true → console_calls (log_log W now lvl file line fmt ap L) = []) ∧
  (∀ enable,
     callback_calls (log_log W now lvl file line fmt ap (log_set_quiet enable L)) =
     callback_calls (log_log W now lvl file line fmt ap L)) ∧
  callbacks (log_set_quiet true L) = callbacks L.
Proof.
  cbv zeta.
  assert (console_calls (log_log W now lvl file line fmt ap (log_set_quiet true L)) = [])
    as Hc by (by rewrite console_calls_log_log).
  split; [done|split; [|split; [|split; [|done]]]].
  - intros vformat color. unfold console_output. by rewrite Hc.
  - intros Hq. by rewrite console_calls_log_log, Hq.
  - intros enable. by rewrite !callback_calls_log_log.
Qed.

Lemma C4_witness :
  console_calls (log_log W_mark tm_sample 5 "main.c" 42 "ready" [] L_full') = [] ∧
  callback_calls (log_log W_mark tm_sample 5 "main.c" 42 "ready" []
                    (log_set_quiet true L_full)) =
  callback_calls (log_log W_mark tm_sample 5 "main.c" 42 "ready" [] L_full).
Proof.
  split.
  - destruct (C4_quiet_suppresses_console W_mark L_full' tm_sample 5 "main.c" 42
                "ready" []) as (_ & _ & Hq & _).
    apply Hq. reflexivity.
  - destruct (C4_quiet_suppresses_console W_mark L_full tm_sample 5 "main.c" 42
                "ready" []) as (_ & _ & _ & Hcb & _).
    apply (Hcb true).
Defined.

Section Callees.

Variables (W : sink_writes) (now : tm) (lvl : Z) (file : string) (line : Z)
          (fmt : string) (ap : va_list).

Lemma called_calls L i :
  called i (log_log W now lvl file line fmt ap L) ↔
  ∃ cb, calls i cb (log_log W now lvl file line fmt ap L).
Proof.
  unfold called, called_with, calls. split.
  - intros (ev & cb & Hin). by exists cb, ev.
  - intros (cb & ev & Hin). by exists ev, cb.
Qed.

(** The slots a log call goes through, in order. *)
Lemma log_log_slots L :
  omap slot_of (log_log W now lvl file line fmt ap L) =
  callbacks_from (λ j cb acc, acc ++ gated lvl cb [j]) MAX_CALLBACKS 0 L [].
Proof.
  rewrite log_log_split, omap_app.
  replace (omap slot_of (log_console now lvl ap L _).2) with (@nil nat)
    by (unfold log_console; by destruct (negb (L_quiet L) && (L_level L <=? lvl))).
  unfold dispatch. by apply log_loop_omap.
Qed.

(** In a reachable state the loop reaches every registered callback. *)
Lemma registered_calls msc L i cb :
  reachable msc L → callbacks L !! i = Some cb → fn cb ≠ None →
  level cb ≤ lvl → calls i cb (log_log W now lvl file line fmt ap L).
Proof.
  intros HL Hcb Hfn Hle. apply calls_log_log.
  split; [done|split; [|split; [done|]]].
  - rewrite <- (reachable_length msc L HL). by eapply lookup_lt_Some.
  - intros j Hj. destruct (decide (j = i)) as [->|Hne]; [by exists cb|].
    apply (reachable_prefix_closed msc L HL j i cb); [lia|done|done].
Qed.

Lemma calls_threshold L i c :
  calls i c (log_log W now lvl file line fmt ap L) →
  callbacks L !! i = Some c ∧ level c ≤ lvl.
Proof. intros Hc. by apply calls_log_log in Hc as (? & _ & ? & _). Qed.

Lemma called_iff msc L i cb :
  reachable msc L → callbacks L !! i = Some cb → fn cb ≠ None →
  called i (log_log W now lvl file line fmt ap L) ↔ level cb ≤ lvl.
Proof.
  intros HL Hcb Hfn. rewrite called_calls. split.
  - intros (c & Hc). apply calls_threshold in Hc as [Hc Hle]. by simplify_eq.
  - intros Hle. exists cb. by eapply registered_calls.
Qed.

Lemma calls_transfer i cb L1 L2 :
  differ_only_outside i L1 L2 →
  calls i cb (log_log W now lvl file line fmt ap L1) →
  calls i cb (log_log W now lvl file line fmt ap L2).
Proof.
  intros [Hi Hall] Hc.
  apply calls_log_log in Hc as (Hle & Hlt & Hcb & Hpre).
  apply calls_log_log. split; [done|split; [done|split]].
  - by rewrite <- Hi.
  - intros j Hj. destruct (Hpre j Hj) as (c & Hc & Hn).
    destruct (Hall j) as [Hfn _]. rewrite Hc in Hfn; simpl in Hfn.
    destruct (callbacks L2 !! j) as [c2|]; simpl in Hfn; [|done].
    exists c2. split; [done|]. congruence.
Qed.

(** With sinks that only read the event, a callback call is one of
    [delivered]. *)
Lemma elem_of_log_log_read_only L i cb ev :
  read_only W L →
  CallCb i cb ev ∈ log_log W now lvl file line fmt ap L ↔
  ev = event_for now lvl file line fmt ap (udata cb) ∧
  calls i cb (log_log W now lvl file line fmt ap L).
Proof.
  intros Hro. rewrite calls_log_log, elem_of_log_log_cb.
  rewrite (dispatch_read_only W now lvl file line fmt ap L Hro), elem_of_delivered.
  split.
  - intros (j & c & Heq & Hrest). by simplify_eq.
  - intros (-> & Hrest). by exists i, cb.
Qed.

End Callees.

Lemma differ_only_outside_sym i L1 L2 :
  differ_only_outside i L1 L2 → differ_only_outside i L2 L1.
Proof.
  intros [Hi Hall]. split; [done|]. intros j. by destruct (Hall j).
Qed.

Lemma read_only_transfer W i L1 L2 :
  differ_only_outside i L1 L2 → read_only W L1 → read_only W L2.
Proof.
  intros [_ Hall] Hro j cb a Hcb Hfn.
  destruct (Hall j) as [Hf _]. rewrite Hcb in Hf; simpl in Hf.
  destruct (callbacks L1 !! j) as [c1|] eqn:H1; simpl in Hf; [|done].
  apply (Hro j c1 a H1). congruence.
Qed.

(** C2. In a reachable state, a registered callback is called by a log
    call at level [lvl] if and only if [lvl] is greater than or equal to
    that callback's own threshold. Whether it is called is the same in any
    state that differs only in the global level, the quiet flag and the
    thresholds of the other callbacks, whatever the sinks write to the
    event; and when the registered sinks only read the event, it is called
    with the same event in both states. *)
Theorem C2_callback_own_threshold (W : sink_writes) (msc : bool)
    (L1 L2 : Logger) (now : tm) (lvl : Z) (file : string) (line : Z)
    (fmt : string) (ap : va_list) (i : nat) (cb : Callback) :
  reachable msc L1 → callbacks L1 !! i = Some cb → fn cb ≠ None →
  (called i (log_log W now lvl file line fmt ap L1) ↔ level cb ≤ lvl) ∧
  (calls i cb (log_log W now lvl file line fmt ap L1) ↔ level cb ≤ lvl) ∧
  (differ_only_outside i L1 L2 →
     (called i (log_log W now lvl file line fmt ap L1) ↔
      called i (log_log W now lvl file line fmt ap L2)) ∧
     (calls i cb (log_log W now lvl file line fmt ap L1) ↔
      calls i cb (log_log W now lvl file line fmt ap L2))) ∧
  (differ_only_outside i L1 L2 → read_only W L1 →
     ∀ ev, called_with i ev (log_log W now lvl file line fmt ap L1) ↔
           called_with i ev (log_log W now lvl file line fmt ap L2)).
Proof.
  intros HL Hcb Hfn.
  assert (∀ La Lb c, differ_only_outside i La Lb →
            calls i c (log_log W now lvl file line fmt ap La) ↔
            calls i c (log_log W now lvl file line fmt ap Lb)) as Hcalls.
  { intros La Lb c Hd. split; apply calls_transfer;
      [done|by apply differ_only_outside_sym]. }
  split; [by eapply called_iff|]. split; [|split].
  - split.
    + intros Hc. apply calls_threshold in Hc as [Hc Hle]. by simplify_eq.
    + by eapply registered_calls.
  - intros Hd. split; [|by apply Hcalls].
    rewrite !called_calls. split; intros [c Hc]; exists c;
      by apply (Hcalls L1 L2 c Hd).
  - intros Hd Hro ev. unfold called_with.
    pose proof (read_only_transfer W i L1 L2 Hd Hro) as Hro2.
    split; intros [c Hin]; exists c.
    + apply (elem_of_log_log_read_only W now lvl file line fmt ap L1) in Hin
        as [-> Hc]; [|done].
      apply elem_of_log_log_read_only; [done|]. split; [done|].
      by apply (Hcalls L1 L2 c Hd).
    + apply (elem_of_log_log_read_only W now lvl file line fmt ap L2) in Hin
        as [-> Hc]; [|done].
      apply elem_of_log_log_read_only; [done|]. split; [done|].
      by apply (Hcalls L1 L2 c Hd).
Qed.

Lemma C2_witness :
  called 0 (log_log W_mark tm_sample 2 "main.c" 42 "ready" [] L_full) ∧
  (calls 0 (mkCallback (Some file_callback_fn) 77 1)
     (log_log W_mark tm_sample 2 "main.c" 42 "ready" [] L_full) ↔
   calls 0 (mkCallback (Some file_callback_fn) 77 1)
     (log_log W_mark tm_sample 2 "main.c" 42 "ready" [] L_full')).
Proof.
  destruct (C2_callback_own_threshold W_mark false L_full L_full'
              tm_sample 2 "main.c" 42 "ready" [] 0
              (mkCallback (Some file_callback_fn) 77 1))
    as (Hiff & _ & Hsame & _).
  - exact reachable_L_full.
  - reflexivity.
  - simpl. discriminate.
  - split.
    + apply Hiff. simpl. lia.
    + apply Hsame. split; [reflexivity|].
      intros [|[|j]]; split; reflexivity.
Defined.

(** When every threshold is reached, the slots a log call goes through
    are the slots the loop header reaches. *)
Lemma gated_all lvl L n i (t : list nat) :
  (∀ j cb, callbacks L !! j = Some cb → level cb ≤ lvl) →
  callbacks_from (λ j cb acc, acc ++ gated lvl cb [j]) n i L t =
  callbacks_from (λ j _ acc, acc ++ [j]) n i L t.
Proof.
  intros Hall. revert i t. induction n as [|n IH]; intros i t; simpl; [done|].
  destruct (callbacks L !! i) as [cb|] eqn:Hcb; [|done].
  destruct (fn cb); [|done]. unfold gated.
  destruct (Z.leb_spec (level cb) lvl) as [_|Hlt]; [apply IH|].
  specialize (Hall i cb Hcb). lia.
Qed.

(** C10. In every reachable state the slots holding a function form a
    prefix of the array (slot 1 is occupied only if slot 0 is), so the loop
    of [log_log], which stops at the first null function pointer, reaches
    every registered callback and nothing else: a log call calls every
    registered callback whose threshold its level reaches, it calls no
    slot the loop does not reach, and at a level that reaches every
    threshold the slots it goes through are exactly the registered ones. *)
Theorem C10_registered_prefix_visited (msc : bool) (L : Logger) :
  reachable msc L →
  prefix_closed L ∧
  (∀ i cb, callbacks L !! i = Some cb → fn cb ≠ None → i ∈ visited L) ∧
  (∀ i, i ∈ visited L → ∃ cb, callbacks L !! i = Some cb ∧ fn cb ≠ None) ∧
  (∀ W now lvl file line fmt ap i cb,
     callbacks L !! i = Some cb → fn cb ≠ None → level cb ≤ lvl →
     calls i cb (log_log W now lvl file line fmt ap L)) ∧
  (∀ W now lvl file line fmt ap i,
     called i (log_log W now lvl file line fmt ap L) → i ∈ visited L) ∧
  (∀ W now lvl file line fmt ap,
     (∀ j cb, callbacks L !! j = Some cb → level cb ≤ lvl) →
     omap slot_of (log_log W now lvl file line fmt ap L) = visited L).
Proof.
  intros HL.
  assert (∀ i cb, callbacks L !! i = Some cb → fn cb ≠ None → i ∈ visited L)
    as Hvis.
  { intros i cb Hcb Hfn. unfold visited.
    apply (callbacks_from_elem (λ i _, [i])). right. exists i, cb.
    split; [by apply list_elem_of_singleton|split; [|split; [done|]]].
    + apply lookup_lt_Some in Hcb. rewrite (reachable_length msc L HL) in Hcb. lia.
    + intros j Hj. destruct (decide (j = i)) as [->|Hne]; [by exists cb|].
      apply (reachable_prefix_closed msc L HL j i cb); [lia|done|done]. }
  split; [by eapply reachable_prefix_closed|]. split; [done|]. split; [|split; [|split]].
  - intros i Hi. unfold visited in Hi.
    apply (callbacks_from_elem (λ i _, [i])) in Hi
      as [Hi|(i' & cb & Hx & _ & Hcb & Hall)]; [by apply elem_of_nil in Hi|].
    apply list_elem_of_singleton in Hx as ->. apply Hall. lia.
  - intros W now lvl file line fmt ap i cb Hcb Hfn Hle.
    by eapply registered_calls.
  - intros W now lvl file line fmt ap i Hc.
    apply called_calls in Hc as [c Hc].
    apply calls_log_log in Hc as (_ & _ & Hcb & Hall).
    destruct (Hall i) as (c' & Hc' & Hn); [lia|]. simplify_eq. by eapply Hvis.
  - intros W now lvl file line fmt ap Hall.
    rewrite log_log_slots. by apply gated_all.
Qed.

Lemma C10_witness :
  prefix_closed L_full ∧ 0%nat ∈ visited L_full ∧ 1%nat ∈ visited L_full ∧
  calls 1 (mkCallback (Some (user_fn 1)) 88 4)
    (log_log W_mark tm_sample 4 "main.c" 42 "ready" [] L_full) ∧
  omap slot_of (log_log W_mark tm_sample 4 "main.c" 42 "ready" [] L_full) =
    visited L_full.
Proof.
  destruct (C10_registered_prefix_visited false L_full reachable_L_full)
    as (Hpre & Hvis & _ & Hcalls & _ & Hall).
  split; [exact Hpre|]. split; [|split; [|split]].
  - apply (Hvis 0%nat (mkCallback (Some file_callback_fn) 77 1)); [reflexivity|].
    simpl. discriminate.
  - apply (Hvis 1%nat (mkCallback (Some (user_fn 1)) 88 4)); [reflexivity|].
    simpl. discriminate.
  - apply Hcalls; [reflexivity|simpl; discriminate|simpl; lia].
  - apply Hall. intros [|[|j]] cb Hcb; simpl in Hcb; simplify_eq; simpl; lia.
Defined.

(** ** Registering a null function pointer *)

(** With both slots occupied, [log_add_callback(NULL, ...)] returns -1 as
    for any other function. *)
Lemma C9_null_refused_when_full :
  reachable false L_full ∧ (log_add_callback None 99 0 L_full).2 = -1 ∧
  (log_add_callback None 99 0 L_full).2 ≠ 0.
Proof. split; [exact reachable_L_full|]. split; [reflexivity|discriminate]. Qed.

(** [log_log] never calls through a null function pointer. *)
Lemma log_log_calls_registered W now lvl file line fmt ap L i cb ev :
  CallCb i cb ev ∈ log_log W now lvl file line fmt ap L →
  callbacks L !! i = Some cb ∧ fn cb ≠ None.
Proof.
  intros Hin.
  assert (calls i cb (log_log W now lvl file line fmt ap L)) as Hc
    by (by exists ev).
  apply calls_log_log in Hc as (_ & _ & Hcb & Hall).
  destruct (Hall i) as (c & Hc & Hn); [lia|]. by simplify_eq.
Qed.

(** C9. In a reachable state with a free slot,
    [log_add_callback] with a null function pointer returns 0 and writes
    the slot after the registered callbacks; with both slots occupied it
    returns -1 and writes nothing. Either way no active sink is registered:
    the number of registered callbacks is unchanged, a subsequent
    [log_add_callback] gives what it would have given without the null
    registration (it writes over the same slot), every log call makes the
    same calls as before, and no log call in any state calls through a null
    function pointer. *)
Theorem C9_null_callback_registers_nothing (msc : bool) (L : Logger)
    (u : ptr) (lvl : Z) :
  reachable msc L →
  let r := log_add_callback None u lvl L in
  ((count_registered L < MAX_CALLBACKS)%nat →
     r = (set_callback (count_registered L) (mkCallback None u lvl) L, 0)) ∧
  (count_registered L = MAX_CALLBACKS → r = (L, -1)) ∧
  count_registered r.1 = count_registered L ∧
  (∀ f' u' lvl',
     log_add_callback f' u' lvl' r.1 = log_add_callback f' u' lvl' L) ∧
  (∀ W now lvl' file line fmt ap,
     log_log W now lvl' file line fmt ap r.1 = log_log W now lvl' file line fmt ap L) ∧
  (∀ W L' now lvl' file line fmt ap i cb ev,
     CallCb i cb ev ∈ log_log W now lvl' file line fmt ap L' → fn cb ≠ None).
Proof.
  intros HL r.
  destruct (add_callback_capacity_cases msc L None u lvl HL) as [Hfree Hfull].
  destruct (reachable_shape msc L HL) as (c0 & c1 & Hcs & H01).
  assert (Hr : r = log_add_callback None u lvl L) by done.
  rewrite (log_add_callback_two None u lvl L c0 c1 Hcs) in Hr.
  split; [exact Hfree|]. split; [exact Hfull|]. split; [|split; [|split]].
  - rewrite Hr.
    destruct (fn c0) eqn:H0, (fn c1) eqn:H1; simpl; try done;
      try (exfalso; by apply H01);
      erewrite (count_registered_two (set_callback _ _ L))
        by (simpl; rewrite Hcs; reflexivity);
      rewrite (count_registered_two L c0 c1 Hcs); unfold registered; simpl;
      rewrite ?H0, ?H1; done.
  - intros f' u' lvl'. rewrite Hr.
    destruct (fn c0) eqn:H0, (fn c1) eqn:H1; simpl; try done;
      try (exfalso; by apply H01);
      unfold log_add_callback, set_callback; simpl; rewrite Hcs; simpl;
      rewrite ?H0, ?H1; unfold set_callback; simpl; by rewrite Hcs.
  - intros W now lvl' file line fmt ap. rewrite Hr.
    destruct (fn c0) eqn:H0, (fn c1) eqn:H1; simpl; try done;
      try (exfalso; by apply H01);
      unfold log_log, log_console, set_callback; simpl; rewrite Hcs; simpl;
      by rewrite ?H0, ?H1.
  - intros W L' now lvl' file line fmt ap i cb ev Hin.
    by apply log_log_calls_registered in Hin as [_ ?].
Qed.

(** ** The error-code table *)

(** C5. [ErrorCodeToString] returns the literal of each of the four codes,
    0 to ["CU_SUCCESS"], 1 to ["CU_FAILURE"], 2 to ["CU_LOG_FILE_ERROR"],
    3 to ["CU_FILE_CLOSE_ERROR"], and the table lookup is in bounds exactly
    for the codes of that range. *)
Theorem C5_error_code_strings :
  ErrorCodeToString 0 = Some "CU_SUCCESS"%string ∧
  ErrorCodeToString 1 = Some "CU_FAILURE"%string ∧
  ErrorCodeToString 2 = Some "CU_LOG_FILE_ERROR"%string ∧
  ErrorCodeToString 3 = Some "CU_FILE_CLOSE_ERROR"%string ∧
  (∀ code, 0 ≤ code < 4 → is_Some (ErrorCodeToString code)) ∧
  (∀ code, is_Some (ErrorCodeToString code) → 0 ≤ code < 4).
Proof.
  split; [done|]. split; [done|]. split; [done|]. split; [done|]. split.
  - intros code H.
    assert (code = 0 ∨ code = 1 ∨ code = 2 ∨ code = 3) as Hc by lia.
    destruct Hc as [->|[->|[->| ->]]]; by eexists.
  - intros code [s Hs]. unfold ErrorCodeToString, index in Hs.
    destruct (Z.ltb_spec code 0) as [|Hge]; [done|].
    apply lookup_lt_Some in Hs. simpl in Hs. lia.
Qed.

Lemma C5_witness : is_Some (ErrorCodeToString 2).
Proof.
  destruct C5_error_code_strings as (_ & _ & _ & _ & Hin & _).
  apply (Hin 2). lia.
Defined.

(** ** The lines the two sinks write *)

Lemma string_app_nil_r (s : string) : (s +:+ "")%string = s.
Proof.
  induction s as [|c s IH]; [done|].
  change (String c (s +:+ "") = String c s). by rewrite IH.
Qed.

Lemma string_app_length (s1 s2 : string) :
  String.length (s1 +:+ s2) = (String.length s1 + String.length s2)%nat.
Proof.
  induction s1 as [|c s1 IH]; [done|].
  change (S (String.length (s1 +:+ s2)) = S (String.length s1 + String.length s2)).
  by rewrite IH.
Qed.

(** A check run on every number below a bound holds of each of them. *)
Lemma checked_below (P : Z → bool) (lo : Z) (n : nat) :
  forallb (λ k, P (lo + Z.of_nat k)) (seq 0 n) = true →
  ∀ z, lo ≤ z < lo + Z.of_nat n → P z = true.
Proof.
  intros Hall z Hz. rewrite forallb_forall in Hall.
  replace z with (lo + Z.of_nat (Z.to_nat (z - lo))) by lia.
  apply Hall, in_seq. lia.
Qed.

Lemma two_digits_length z :
  0 ≤ z < 100 → String.length (two_digits z) = 2%nat.
Proof.
  intros Hz.
  apply Nat.eqb_eq,
    (checked_below (λ z, String.length (two_digits z) =? 2)%nat 0 100);
    [by vm_compute|lia].
Qed.

Lemma year_length z :
  1000 ≤ z ≤ 9999 → String.length (string_of_Z z) = 4%nat.
Proof.
  intros Hz.
  apply Nat.eqb_eq,
    (checked_below (λ z, String.length (string_of_Z z) =? 4)%nat 1000
       (Z.to_nat 9000));
    [by vm_compute|lia].
Qed.

Lemma hms_length t : tm_ok t → String.length (hms t) = 8%nat.
Proof.
  intros (Hs & Hm & Hh & _). unfold hms.
  rewrite !string_app_length, !two_digits_length by lia. done.
Qed.

Lemma ymd_hms_length t : tm_ok t → String.length (ymd_hms t) = 19%nat.
Proof.
  intros Ht. pose proof (hms_length t Ht) as Hhms.
  destruct Ht as (_ & _ & _ & Hd & Hmo & Hy). unfold ymd_hms.
  rewrite !string_app_length, !two_digits_length, year_length, Hhms by lia.
  done.
Qed.

(** The console time stamp fits its 16 bytes. *)
Lemma strftime_hms t : tm_ok t → strftime 16 "%H:%M:%S" t = hms t.
Proof.
  intros Ht. unfold strftime.
  change (strftime_expand "%H:%M:%S" t)
    with (two_digits (tm_hour t) +:+ ":" +:+ two_digits (tm_min t) +:+ ":" +:+
          (two_digits (tm_sec t) +:+ ""))%string.
  rewrite string_app_nil_r. fold (hms t). rewrite (hms_length t Ht).
  by destruct (decide (8 < 16)%nat) as [_|Hn]; [|lia].
Qed.

(** The file time stamp fits its 64 bytes. *)
Lemma strftime_ymd_hms t :
  tm_ok t → strftime 64 "%Y-%m-%d %H:%M:%S" t = ymd_hms t.
Proof.
  intros Ht. unfold strftime.
  change (strftime_expand "%Y-%m-%d %H:%M:%S" t)
    with (string_of_Z (tm_year t + 1900) +:+ "-" +:+ two_digits (tm_mon t + 1)
          +:+ "-" +:+ two_digits (tm_mday t) +:+ " " +:+
          two_digits (tm_hour t) +:+ ":" +:+ two_digits (tm_min t) +:+ ":" +:+
          (two_digits (tm_sec t) +:+ ""))%string.
  rewrite string_app_nil_r. fold (hms t). fold (ymd_hms t).
  rewrite (ymd_hms_length t Ht).
  by destruct (decide (19 < 64)%nat) as [_|Hn]; [|lia].
Qed.

Lemma index_level_colors lvl lv :
  index level_strings lvl = Some lv → is_Some (index level_colors lvl).
Proof.
  unfold index. destruct (lvl <? 0); [done|].
  destruct (Z.to_nat lvl) as [|[|[|[|[|[|n]]]]]]; simpl; by eauto.
Qed.

(** X15. An emission of either built-in sink, for an event at one
    of the six levels with a valid time, hands its destination one line:
    the time stamp ([HH:MM:SS] for the console sink, [YYYY-MM-DD HH:MM:SS]
    for the file sink), the level tag, [file:line:], the formatted message
    and a newline. The console sink ends by flushing its stream. *)
Theorem X15_sink_lines (vformat : string → va_list → string)
    (color : bool) (ev : log_Event) (t : tm) (lv : string) :
  ev_time ev = Some t → tm_ok t →
  index level_strings (ev_level ev) = Some lv →
  writes_line_and_flushes (ev_udata ev)
    (console_head color t lv ev +:+ vformat (ev_fmt ev) (ev_ap ev) +:+ newline)
    (stdout_callback vformat color ev) ∧
  writes_line (ev_udata ev)
    (file_head t lv ev +:+ vformat (ev_fmt ev) (ev_ap ev) +:+ newline)
    (file_callback vformat ev) ∧
  String.length (hms t) = 8%nat ∧ String.length (ymd_hms t) = 19%nat.
Proof.
  intros Ht Hok Hlv. split; [|split; [|split]].
  - unfold writes_line_and_flushes, stdout_callback, console_head.
    rewrite Ht; simpl. rewrite (strftime_hms t Hok), Hlv; simpl.
    destruct color.
    + destruct (index_level_colors _ _ Hlv) as [col Hcol]. rewrite Hcol; simpl.
      eexists. split; [reflexivity|]. split; [reflexivity|].
      split; [by repeat constructor|done].
    + simpl. eexists. split; [reflexivity|]. split; [reflexivity|].
      split; [by repeat constructor|done].
  - unfold writes_line, file_callback, file_head.
    rewrite Ht; simpl. rewrite (strftime_ymd_hms t Hok), Hlv; simpl.
    eexists. split; [reflexivity|]. split; [reflexivity|by repeat constructor].
  - by apply hms_length.
  - by apply ymd_hms_length.
Qed.

Lemma tm_sample_ok : tm_ok tm_sample.
Proof. unfold tm_ok; simpl. lia. Qed.

Lemma X15_witness :
  writes_line_and_flushes 77
    ("09:05:07 INFO   main.c:42: " +:+ "ready" +:+ newline)
    (stdout_callback vformat_plain false ev_sample) ∧
  writes_line 77
    ("2024-01-03 09:05:07 INFO   main.c:42: " +:+ "ready" +:+ newline)
    (file_callback vformat_plain ev_sample).
Proof.
  destruct (X15_sink_lines vformat_plain false ev_sample tm_sample "INFO")
    as (Hconsole & Hfile & _).
  - reflexivity.
  - exact tm_sample_ok.
  - reflexivity.
  - split; [exact Hconsole|exact Hfile].
Defined.

Lemma C9_witness :
  log_add_callback None 99 0 L_one =
    (set_callback 1 (mkCallback None 99 0) L_one, 0) ∧
  log_add_callback (Some (user_fn 1)) 88 4 (log_add_callback None 99 0 L_one).1 =
    (L_full, 0).
Proof.
  destruct (C9_null_callback_registers_nothing false L_one 99 0 reachable_L_one)
    as (Hfree & _ & _ & Hnext & _).
  split.
  - apply Hfree. vm_compute. lia.
  - rewrite Hnext. reflexivity.
Defined.

(** ** Further properties: what the operations keep *)

Lemma reachable_run msc os L : reachable msc L → reachable msc (run msc os L).
Proof.
  revert L. induction os as [|o os IH]; intros L HL; [done|].
  apply IH. by constructor.
Qed.

Lemma step_globals msc o L :
  is_setter o = false →
  L_level (step msc o L).1 = L_level L ∧ L_quiet (step msc o L).1 = L_quiet L.
Proof.
  intros Ho. destruct o; simpl in *; try done.
  - split; apply add_callback_from_globals.
  - split; apply add_callback_from_globals.
  - unfold log_init. destruct msc; [|done]. split; apply add_callback_from_globals.
Qed.

Lemma step_udata msc o L : L_udata (step msc o L).1 = L_udata L.
Proof.
  destruct o; simpl; try done.
  - apply add_callback_from_globals.
  - apply add_callback_from_globals.
  - unfold log_init. destruct msc; [|done]. apply add_callback_from_globals.
Qed.

(** X1. Only the two setters change the global level and the quiet flag:
    registration ([log_add_callback], [log_add_fp], [log_init]) and
    [log_log] leave both as they are. The setters in turn leave the
    callback array as it is. No operation writes [L.udata]: it is null in
    every reachable state. *)
Theorem X1_operations_frame (msc : bool) (o : op) (L : Logger) :
  (is_setter o = false →
     L_level (step msc o L).1 = L_level L ∧
     L_quiet (step msc o L).1 = L_quiet L) ∧
  (is_setter o = true → callbacks (step msc o L).1 = callbacks L) ∧
  (reachable msc L → L_udata L = NULL).
Proof.
  split; [apply step_globals|]. split.
  - by destruct o.
  - induction 1 as [|o' L' _ IH]; [done|]. by rewrite step_udata.
Qed.

Lemma X1_witness :
  L_level (step true Init (log_set_level 3 L_one)).1 = 3 ∧
  callbacks (step true (Set_quiet true) L_full).1 = callbacks L_full ∧
  L_udata L_full = NULL.
Proof.
  destruct (X1_operations_frame true Init (log_set_level 3 L_one))
    as (Hglob & _ & _).
  destruct (X1_operations_frame false (Set_quiet true) L_full)
    as (_ & Hcbs & Hud).
  split; [|split].
  - destruct Hglob as [Hl _]; [reflexivity|]. rewrite Hl. reflexivity.
  - apply (Hcbs eq_refl).
  - apply Hud. exact reachable_L_full.
Defined.

(** The count of registered callbacks after a registration. *)
Lemma count_registered_add msc L f u lvl :
  reachable msc L →
  count_registered (log_add_callback f u lvl L).1 =
    (count_registered L +
     (if decide (count_registered L < MAX_CALLBACKS)%nat
      then (if f is Some _ then 1 else 0) else 0))%nat.
Proof.
  intros HL. destruct (reachable_shape msc L HL) as (c0 & c1 & Hcs & H01).
  rewrite (log_add_callback_two f u lvl L c0 c1 Hcs),
    (count_registered_two L c0 c1 Hcs). unfold MAX_CALLBACKS, registered.
  destruct (fn c0) eqn:H0, (fn c1) eqn:H1; simpl;
    try (exfalso; by apply H01);
    try (rewrite (count_registered_two L c0 c1 Hcs); unfold registered;
         by rewrite H0, H1);
    erewrite (count_registered_two (set_callback _ _ L))
      by (simpl; rewrite Hcs; reflexivity);
    unfold registered; simpl; rewrite ?H0, ?H1; by destruct f.
Qed.

Lemma count_registered_bound msc L :
  reachable msc L → (count_registered L ≤ MAX_CALLBACKS)%nat.
Proof.
  intros HL. destruct (reachable_shape msc L HL) as (c0 & c1 & Hcs & _).
  rewrite (count_registered_two L c0 c1 Hcs). unfold MAX_CALLBACKS.
  destruct (registered c0), (registered c1); simpl; lia.
Qed.

(** X2. In every reachable state at most [MAX_CALLBACKS] callbacks are
    registered; an operation never lowers that number and raises it by at
    most one; [log_add_callback] raises it exactly when a slot is free and
    the function pointer is not null. *)
Theorem X2_registered_count (msc : bool) (L : Logger) :
  reachable msc L →
  (count_registered L ≤ MAX_CALLBACKS)%nat ∧
  (∀ o, (count_registered L ≤ count_registered (step msc o L).1
           ≤ count_registered L + 1)%nat) ∧
  (∀ f u lvl,
     count_registered (log_add_callback f u lvl L).1 = S (count_registered L) ↔
     (count_registered L < MAX_CALLBACKS)%nat ∧ f ≠ None).
Proof.
  intros HL. split; [by eapply count_registered_bound|]. split.
  - assert (∀ f u lvl,
      (count_registered L ≤ count_registered (log_add_callback f u lvl L).1
         ≤ count_registered L + 1)%nat) as Hadd.
    { intros f u lvl. rewrite (count_registered_add msc L f u lvl HL).
      destruct (decide _); [destruct f|]; lia. }
    intros o. destruct o; simpl;
      [unfold count_registered; simpl; lia|unfold count_registered; simpl; lia
      |apply Hadd|apply Hadd| |lia].
    unfold log_init. destruct msc; [apply Hadd|simpl; lia].
  - intros f u lvl. rewrite (count_registered_add msc L f u lvl HL).
    destruct (decide _) as [Hlt|Hge]; [destruct f|]; split;
      try lia; try (intros [? ?]; done); try (intros _; done).
Qed.

Lemma X2_witness :
  (count_registered L_one ≤ count_registered (step false (Add_fp 55 0) L_one).1
     ≤ count_registered L_one + 1)%nat ∧
  count_registered (log_add_callback (Some (user_fn 1)) 88 4 L_one).1 =
    S (count_registered L_one).
Proof.
  destruct (X2_registered_count false L_one reachable_L_one) as (_ & Hstep & Hadd).
  split; [apply Hstep|]. apply Hadd. split; [vm_compute; lia|discriminate].
Defined.

Lemma step_full msc o L :
  reachable msc L → count_registered L = MAX_CALLBACKS →
  callbacks (step msc o L).1 = callbacks L.
Proof.
  intros HL Hfull.
  assert (∀ f u lvl, callbacks (log_add_callback f u lvl L).1 = callbacks L) as Hadd.
  { intros f u lvl.
    destruct (add_callback_capacity_cases msc L f u lvl HL) as [_ ->]; done. }
  destruct o; simpl; try done; try apply Hadd.
  unfold log_init. destruct msc; [apply Hadd|done].
Qed.

(** X3. Once both slots hold a callback the array is final: after any
    further sequence of operations it holds the same two triples, so every
    later registration fails with -1. *)
Theorem X3_full_array_is_final (msc : bool) (L : Logger) (os : list op) :
  reachable msc L → count_registered L = MAX_CALLBACKS →
  callbacks (run msc os L) = callbacks L ∧
  (∀ f u lvl, (log_add_callback f u lvl (run msc os L)).2 = -1).
Proof.
  intros HL Hfull.
  assert (callbacks (run msc os L) = callbacks L) as Hsame.
  { revert L HL Hfull. induction os as [|o os IH]; intros L HL Hfull; [done|].
    simpl. rewrite IH.
    - by apply step_full.
    - by constructor.
    - unfold count_registered in *. by rewrite step_full. }
  split; [done|]. intros f u lvl.
  destruct (add_callback_capacity_cases msc (run msc os L) f u lvl
              (reachable_run msc os L HL)) as [_ Hret].
  rewrite Hret; [done|]. unfold count_registered in *. by rewrite Hsame.
Qed.

Lemma X3_witness :
  callbacks (run false [Add_fp 55 0; Set_level 4; Add_callback None 9 9] L_full)
  = callbacks L_full.
Proof.
  apply (X3_full_array_is_final false L_full
           [Add_fp 55 0; Set_level 4; Add_callback None 9 9]).
  - exact reachable_L_full.
  - reflexivity.
Defined.

(** ** Further properties: from registration to delivery *)

Lemma run_keeps msc os L i cb :
  callbacks L !! i = Some cb → fn cb ≠ None →
  callbacks (run msc os L) !! i = Some cb.
Proof.
  intros Hi Hcb. revert L Hi. induction os as [|o os IH]; intros L Hi; [done|].
  apply IH. by apply step_keeps.
Qed.

(** A successful registration wrote the slot after the registered ones. *)
Lemma add_callback_slot msc L f u lvl :
  reachable msc L → (log_add_callback f u lvl L).2 = 0 →
  (count_registered L < MAX_CALLBACKS)%nat ∧
  callbacks (log_add_callback f u lvl L).1 !! count_registered L =
    Some (mkCallback f u lvl).
Proof.
  intros HL Hret.
  destruct (add_callback_capacity_cases msc L f u lvl HL) as [Hfree Hfull].
  pose proof (count_registered_bound msc L HL) as Hle.
  destruct (decide (count_registered L < MAX_CALLBACKS)%nat) as [Hlt|Hge].
  - split; [done|]. rewrite (Hfree Hlt); simpl.
    apply list_lookup_insert_eq. by rewrite (reachable_length msc L HL).
  - rewrite Hfull in Hret by lia. done.
Qed.

(** X4. A sink registered with success stays in service: after any further
    sequence of operations, every log call at or above the sink's threshold
    calls it, and it finds in the event its own user data, the arguments of
    the log call and a time, whatever the sinks before it wrote; when the
    registered sinks only read the event, it finds the event of the log
    call. No log call below the threshold calls its slot. *)
Theorem X4_registered_sink_is_served (W : sink_writes) (msc : bool)
    (L : Logger) (f : LogFn) (u : ptr) (lvl : Z) (os : list op) (now : tm)
    (l : Z) (file : string) (line : Z) (fmt : string) (ap : va_list) :
  reachable msc L → (log_add_callback (Some f) u lvl L).2 = 0 →
  let L' := run msc os (log_add_callback (Some f) u lvl L).1 in
  let i := count_registered L in
  let cb := mkCallback (Some f) u lvl in
  callbacks L' !! i = Some cb ∧
  (lvl ≤ l →
     ∃ ev, CallCb i cb ev ∈ log_log W now l file line fmt ap L' ∧
           ev_udata ev = u ∧ ev_ap ev = ap ∧ ev_time ev ≠ None) ∧
  (lvl ≤ l → read_only W L' →
     CallCb i cb (event_for now l file line fmt ap u)
       ∈ log_log W now l file line fmt ap L') ∧
  (l < lvl → ¬ called i (log_log W now l file line fmt ap L')).
Proof.
  intros HL Hret L' i cb.
  destruct (add_callback_slot msc L (Some f) u lvl HL Hret) as [_ Hslot].
  assert (callbacks L' !! i = Some cb) as Hi by (by apply run_keeps).
  assert (reachable msc L') as HL'.
  { apply reachable_run.
    exact (reachable_step msc (Add_callback (Some f) u lvl) L HL). }
  assert (lvl ≤ l → calls i cb (log_log W now l file line fmt ap L')) as Hcalls.
  { intros Hle. by apply (registered_calls W now l file line fmt ap msc L' i cb). }
  split; [done|]. split; [|split].
  - intros Hle. destruct (Hcalls Hle) as [ev Hin]. exists ev. split; [done|].
    apply elem_of_log_log_cb in Hin.
    by apply dispatch_event in Hin.
  - intros Hle Hro. apply elem_of_log_log_read_only; [done|].
    split; [done|by apply Hcalls].
  - intros Hlt Hc. apply (called_iff W now l file line fmt ap msc L' i cb) in Hc;
      [|done|done|done]. simpl in Hc. lia.
Qed.

Lemma X4_witness :
  ∃ ev, CallCb 1 (mkCallback (Some (user_fn 1)) 88 4) ev
          ∈ log_log W_mark tm_sample 5 "main.c" 42 "ready" []
              (run false [Set_quiet true; Add_fp 55 0; Set_level 9]
                 (log_add_callback (Some (user_fn 1)) 88 4 L_one).1) ∧
        ev_udata ev = 88 ∧ ev_ap ev = [] ∧ ev_time ev ≠ None.
Proof.
  destruct (X4_registered_sink_is_served W_mark false L_one (user_fn 1) 88 4
              [Set_quiet true; Add_fp 55 0; Set_level 9]
              tm_sample 5 "main.c" 42 "ready" [] reachable_L_one)
    as (_ & Hserved & _).
  - reflexivity.
  - apply Hserved. lia.
Defined.

Lemma file_callback_line vformat ev t lv :
  ev_time ev = Some t → tm_ok t →
  index level_strings (ev_level ev) = Some lv →
  writes_line (ev_udata ev)
    (file_head t lv ev +:+ vformat (ev_fmt ev) (ev_ap ev) +:+ newline)
    (file_callback vformat ev).
Proof.
  intros Ht Hok Hlv. unfold writes_line, file_callback, file_head.
  rewrite Ht; simpl. rewrite (strftime_ymd_hms t Hok), Hlv; simpl.
  eexists. split; [reflexivity|]. split; [reflexivity|by repeat constructor].
Qed.

(** What a lookup finds after the loop of [log_add_callback]: the new
    triple, or what was there. *)
Lemma add_callback_from_lookup n i f u lvl L j cb :
  callbacks (add_callback_from n i f u lvl L).1 !! j = Some cb →
  cb = mkCallback f u lvl ∨ callbacks L !! j = Some cb.
Proof.
  revert i. induction n as [|n IH]; intros i; simpl; [by right|].
  destruct (callbacks L !! i) as [c|] eqn:Hi; [|by right].
  destruct (fn c); [apply IH|]. simpl. intros Hj.
  destruct (decide (i = j)) as [->|Hne].
  - rewrite list_lookup_insert_eq in Hj by (by eapply lookup_lt_Some).
    left. congruence.
  - rewrite list_lookup_insert_ne in Hj by done. by right.
Qed.

Lemma read_only_add_fp W file lvl L :
  read_only W L → read_only W (log_add_fp file lvl L).1.
Proof.
  intros Hro j cb a Hcb Hfn.
  apply add_callback_from_lookup in Hcb as [->|Hcb]; [done|].
  by apply (Hro j cb a).
Qed.

(** X5. From [log_add_fp] to the file: once [log_add_fp(file, lvl)] has
    returned 0 in a state whose registered sinks only read the event, a log
    call at one of the six levels, at or above [lvl], makes a call that
    writes to [file] the line
    [YYYY-MM-DD HH:MM:SS LEVEL src:line: message] and a newline. *)
Theorem X5_file_sink_end_to_end (vformat : string → va_list → string)
    (color : bool) (W : sink_writes) (msc : bool) (L : Logger) (file : ptr)
    (lvl l : Z) (now : tm) (src : string) (line : Z) (fmt : string)
    (ap : va_list) (lv : string) :
  reachable msc L → read_only W L → (log_add_fp file lvl L).2 = 0 →
  lvl ≤ l → tm_ok now → log_level_string l = Some lv →
  ∃ c, c ∈ log_log W now l src line fmt ap (log_add_fp file lvl L).1 ∧
       writes_line file
         (file_head now lv (event_for now l src line fmt ap file) +:+
          vformat fmt ap +:+ newline)
         (run_call vformat color c).
Proof.
  intros HL Hro Hret Hle Hok Hlv.
  destruct (add_callback_slot msc L (Some file_callback_fn) file lvl HL Hret)
    as [_ Hslot].
  exists (CallCb (count_registered L) (mkCallback (Some file_callback_fn) file lvl)
            (event_for now l src line fmt ap file)).
  split.
  - apply elem_of_log_log_read_only; [by apply read_only_add_fp|].
    split; [done|].
    apply (registered_calls W now l src line fmt ap msc _ (count_registered L)
             (mkCallback (Some file_callback_fn) file lvl)); [|done|done|done].
    exact (reachable_step msc (Add_fp file lvl) L HL).
  - simpl.
    by apply (file_callback_line vformat (event_for now l src line fmt ap file)).
Qed.

Lemma X5_witness :
  ∃ c, c ∈ log_log W_mark tm_sample 2 "main.c" 42 "ready" []
             (log_add_fp 77 1 L_init).1 ∧
       writes_line 77
         ("2024-01-03 09:05:07 INFO   main.c:42: " +:+ "ready" +:+ newline)
         (run_call vformat_plain false c).
Proof.
  apply (X5_file_sink_end_to_end vformat_plain false W_mark false L_init 77 1 2
           tm_sample "main.c" 42 "ready" [] "INFO").
  - exact (reachable_init false).
  - intros [|[|j]] cb a Hcb Hfn; simpl in Hcb; simplify_eq; discriminate.
  - reflexivity.
  - lia.
  - exact tm_sample_ok.
  - reflexivity.
Defined.

(** ** Further properties: the shape of a trace *)

Lemma increasing_from_weaken lo lo' l :
  (lo ≤ lo')%nat → increasing_from lo' l → increasing_from lo l.
Proof. destruct l as [|x l]; simpl; [done|]. intros ? [? ?]. split; [lia|done]. Qed.

Lemma loop_slots_increasing lvl n i0 L :
  increasing_from i0
    (callbacks_from (λ j cb acc, acc ++ gated lvl cb [j]) n i0 L []).
Proof.
  revert i0. induction n as [|n IH]; intros i0; simpl; [done|].
  destruct (callbacks L !! i0) as [cb|]; [|done].
  destruct (fn cb); [|done].
  rewrite callbacks_from_acc. unfold gated.
  destruct (level cb <=? lvl); simpl.
  - split; [done|apply IH].
  - apply increasing_from_weaken with (S i0); [lia|apply IH].
Qed.

Lemma loop_length W now lvl ap n i0 L ev :
  (length (callbacks_from (log_body W now lvl ap) n i0 L (ev, [])).2 ≤ n)%nat.
Proof.
  revert i0 ev. induction n as [|n IH]; intros i0 ev; simpl; [done|].
  destruct (callbacks L !! i0) as [cb|]; [|simpl; lia].
  destruct (fn cb); [|simpl; lia].
  destruct (level cb <=? lvl) eqn:Hg.
  - replace (log_body W now lvl ap i0 cb (ev, []))
      with (after_call W (fn cb) (va_start ap (init_event now ev (udata cb))),
            [CallCb i0 cb (va_start ap (init_event now ev (udata cb)))])
      by (unfold log_body; simpl; by rewrite Hg).
    rewrite log_loop_acc. cbn [snd]. rewrite length_app.
    specialize (IH (S i0) (after_call W (fn cb)
                  (va_start ap (init_event now ev (udata cb))))).
    simpl. lia.
  - replace (log_body W now lvl ap i0 cb (ev, [])) with (ev, @nil call)
      by (unfold log_body; simpl; by rewrite Hg).
    specialize (IH (S i0) ev). lia.
Qed.

(** X6. The order of the calls of one [log_log]: the console sink first,
    at most once, then the callbacks in strictly increasing slot order,
    that is in the order of their registration and each at most once; a
    log call makes at most [1 + MAX_CALLBACKS] calls. *)
Theorem X6_trace_order (W : sink_writes) (now : tm) (lvl : Z) (file : string)
    (line : Z) (fmt : string) (ap : va_list) (L : Logger) :
  let t := log_log W now lvl file line fmt ap L in
  t = console_calls t ++ callback_calls t ∧
  (length (console_calls t) ≤ 1)%nat ∧
  increasing_from 0 (omap slot_of t) ∧
  (length t ≤ 1 + MAX_CALLBACKS)%nat.
Proof.
  cbv zeta. rewrite log_log_slots.
  rewrite console_calls_log_log, callback_calls_log_log.
  rewrite log_log_split. unfold log_console.
  pose proof (loop_slots_increasing lvl MAX_CALLBACKS 0 L) as Hinc.
  pose proof (loop_length W now lvl ap MAX_CALLBACKS 0 L
                (mkEvent [] fmt file None NULL line lvl)) as Hlen.
  fold (dispatch W now lvl file line fmt ap L) in Hlen.
  destruct (negb (L_quiet L) && (L_level L <=? lvl)); simpl;
    (split; [done|split; [lia|split; [done|lia]]]).
Qed.

(** X7. Whatever the sinks write to the event, every call of one
    [log_log] finds in it the user data of the sink called ([stderr] for
    the console sink), the arguments of the log call and a time; when the
    registered sinks only read the event, every call carries the same
    event but for the user data: the level, file, line, format and
    arguments of the log call. *)
Theorem X7_events_uniform (W : sink_writes) (now : tm) (lvl : Z)
    (file : string) (line : Z) (fmt : string) (ap : va_list) (L : Logger)
    (c : call) :
  c ∈ log_log W now lvl file line fmt ap L →
  (ev_udata (event_of c) = sink_udata c ∧ ev_ap (event_of c) = ap ∧
   ev_time (event_of c) ≠ None) ∧
  (read_only W L →
   event_of c = event_for now lvl file line fmt ap (sink_udata c)).
Proof.
  intros Hin. assert (Hin' := Hin). revert Hin'.
  rewrite log_log_split, elem_of_app. unfold log_console.
  intros [Hc|Hc].
  - destruct (negb (L_quiet L) && (L_level L <=? lvl)); simpl in Hc.
    + by apply list_elem_of_singleton in Hc as ->.
    + by apply elem_of_nil in Hc.
  - destruct c as [ev|i cb ev].
    + pose proof (dispatch_no_stdout W now lvl file line fmt ap L) as Hns.
      rewrite list.Forall_forall in Hns. by specialize (Hns _ Hc).
    + split; [by apply dispatch_event in Hc|]. intros Hro.
      by apply elem_of_log_log_read_only in Hin as [-> _].
Qed.

Lemma X7_witness :
  event_of (CallCb 0 (mkCallback (Some file_callback_fn) 77 1) ev_sample) =
  event_for tm_sample 2 "main.c" 42 "ready" [] 77.
Proof.
  destruct (X7_events_uniform W_none tm_sample 2 "main.c" 42 "ready" [] L_full
              (CallCb 0 (mkCallback (Some file_callback_fn) 77 1) ev_sample))
    as [_ Hsame].
  - vm_compute. apply list_elem_of_further, list_elem_of_here.
  - apply Hsame. intros j cb a _ _ ev. reflexivity.
Defined.

(** X8. In a reachable state a log call at [lvl] makes as many callback
    calls as there are registered callbacks with a threshold at or below
    [lvl]; with none registered it makes no callback call. *)
Theorem X8_callback_call_count (W : sink_writes) (msc : bool) (L : Logger)
    (now : tm) (lvl : Z) (file : string) (line : Z) (fmt : string)
    (ap : va_list) :
  reachable msc L →
  length (callback_calls (log_log W now lvl file line fmt ap L)) =
    length (filter (receives lvl) (callbacks L)) ∧
  (count_registered L = 0%nat →
   callback_calls (log_log W now lvl file line fmt ap L) = []).
Proof.
  intros HL. destruct (reachable_shape msc L HL) as (c0 & c1 & Hcs & H01).
  rewrite callback_calls_log_log, (count_registered_two L c0 c1 Hcs).
  unfold dispatch, log_body; simpl. rewrite Hcs; simpl.
  rewrite !filter_cons, filter_nil. unfold receives, registered.
  destruct (fn c0) eqn:H0, (fn c1) eqn:H1; simpl;
    try (exfalso; by apply H01);
    destruct (level c0 <=? lvl), (level c1 <=? lvl); simpl; done.
Qed.

Lemma X8_witness :
  length (callback_calls
            (log_log W_mark tm_sample 2 "main.c" 42 "ready" [] L_full))
  = 1%nat.
Proof.
  destruct (X8_callback_call_count W_mark false L_full tm_sample 2 "main.c" 42
              "ready" [] reachable_L_full) as [Hlen _].
  rewrite Hlen. reflexivity.
Defined.

(** ** Further properties: levels outside the table *)

Lemma index_level_strings_range lvl lv :
  index level_strings lvl = Some lv → 0 ≤ lvl ≤ 5.
Proof.
  unfold index. destruct (Z.ltb_spec lvl 0) as [|Hge]; [done|].
  intros H. apply lookup_lt_Some in H. simpl in H. lia.
Qed.

Lemma index_level_strings_none lvl :
  index level_strings lvl = None ↔ ¬ 0 ≤ lvl ≤ 5.
Proof.
  split.
  - intros Hn Hr. destruct (index_level_strings lvl Hr) as [[lv Hlv] _]. congruence.
  - intros Hr. destruct (index level_strings lvl) as [lv|] eqn:Hlv; [|done].
    apply index_level_strings_range in Hlv. lia.
Qed.

Lemma stdout_callback_none vformat color ev :
  ev_time ev ≠ None →
  stdout_callback vformat color ev = None ↔ ¬ 0 ≤ ev_level ev ≤ 5.
Proof.
  intros Ht. rewrite <- index_level_strings_none. unfold stdout_callback.
  destruct (ev_time ev) as [t|]; [simpl|done].
  destruct (index level_strings (ev_level ev)) as [lv|] eqn:Hlv; simpl; [|done].
  destruct color; [|done].
  destruct (index_level_colors _ _ Hlv) as [col ->]. done.
Qed.

Lemma file_callback_none vformat ev :
  ev_time ev ≠ None →
  file_callback vformat ev = None ↔ ¬ 0 ≤ ev_level ev ≤ 5.
Proof.
  intros Ht. rewrite <- index_level_strings_none. unfold file_callback.
  destruct (ev_time ev) as [t|]; [simpl|done].
  by destruct (index level_strings (ev_level ev)).
Qed.

(** X9. Neither [log_log] nor the sinks check the level against the six
    entries of [level_strings]: a sink handed an event with a level outside
    0..5 reads past the table, and only then; so a log call reads past it
    on the console path exactly when the console sink is on (not quiet,
    level at or above the global level) and the level is outside 0..5. *)
Theorem X9_level_outside_table (vformat : string → va_list → string)
    (color : bool) (W : sink_writes) (now : tm) (lvl : Z) (file : string) (line : Z)
    (fmt : string) (ap : va_list) (L : Logger) :
  (console_output vformat color (log_log W now lvl file line fmt ap L) = None ↔
   L_quiet L = false ∧ L_level L ≤ lvl ∧ ¬ 0 ≤ lvl ≤ 5) ∧
  (∀ ev, ev_time ev ≠ None →
     (stdout_callback vformat color ev = None ↔ ¬ 0 ≤ ev_level ev ≤ 5) ∧
     (file_callback vformat ev = None ↔ ¬ 0 ≤ ev_level ev ≤ 5)).
Proof.
  split.
  - unfold console_output. rewrite console_calls_log_log.
    pose proof (console_on_iff lvl L) as Hon.
    destruct (negb (L_quiet L) && (L_level L <=? lvl)); simpl.
    + pose proof (stdout_callback_none vformat color
                    (event_for now lvl file line fmt ap stderr)) as Hn.
      simpl in Hn.
      destruct (stdout_callback vformat color _) as [ops|]; simpl.
      * split; [done|]. intros (_ & _ & Hr). apply Hn in Hr; done.
      * split; [|done]. intros _. destruct Hon as [Hon _].
        destruct Hon as [? ?]; [done|]. split; [done|split; [done|]].
        by apply Hn.
    + split; [done|]. intros (Hq & Hle & _). destruct Hon as [_ Hon].
      by discriminate Hon.
  - intros ev Ht. split;
      [by apply stdout_callback_none|by apply file_callback_none].
Qed.

Lemma X9_witness :
  file_callback vformat_plain
    (event_for tm_sample 6 "main.c" 42 "ready" [] 77) = None.
Proof.
  destruct (X9_level_outside_table vformat_plain false W_mark tm_sample 6 "main.c" 42
              "ready" [] L_init) as [_ Hsinks].
  destruct (Hsinks (event_for tm_sample 6 "main.c" 42 "ready" [] 77))
    as [_ Hfile]; [simpl; discriminate|].
  apply Hfile. simpl. lia.
Defined.

(** ** Further properties: [log_init] and repeated registration *)

(** X10. Without [_MSC_VER], [log_init] returns 0 and changes nothing,
    even with both slots taken. With [_MSC_VER] and a free slot it returns
    0 and registers the debugger sink with a null user data and, as its
    threshold, the global level of that moment: a later [log_set_level]
    does not move it, so the sink is called exactly at or above the level
    that was global at [log_init]. With both slots taken it returns -1. *)
Theorem X10_log_init (W : sink_writes) (L : Logger) (l' : Z) (now : tm)
    (l : Z) (file : string) (line : Z) (fmt : string) (ap : va_list) :
  log_init false L = (L, 0) ∧
  (reachable true L → (count_registered L < MAX_CALLBACKS)%nat →
     let L' := log_set_level l' (log_init true L).1 in
     (log_init true L).2 = 0 ∧
     callbacks L' !! count_registered L =
       Some (mkCallback (Some msvc_debug_callback_fn) NULL (L_level L)) ∧
     (called (count_registered L) (log_log W now l file line fmt ap L') ↔
      L_level L ≤ l)) ∧
  (reachable true L → count_registered L = MAX_CALLBACKS →
     log_init true L = (L, -1)).
Proof.
  split; [done|]. split.
  - intros HL Hfree L'.
    destruct (add_callback_capacity_cases true L (Some msvc_debug_callback_fn)
                NULL (L_level L) HL) as [Hadd _].
    specialize (Hadd Hfree).
    assert ((log_init true L).2 = 0) as Hret by (unfold log_init; by rewrite Hadd).
    destruct (add_callback_slot true L (Some msvc_debug_callback_fn) NULL
                (L_level L) HL Hret) as [_ Hslot].
    split; [done|]. split; [done|].
    apply (called_iff W now l file line fmt ap true L' (count_registered L)
             (mkCallback (Some msvc_debug_callback_fn) NULL (L_level L)));
      [|done|done].
    exact (reachable_step true (Set_level l') _ (reachable_step true Init L HL)).
  - intros HL Hfull. unfold log_init.
    by destruct (add_callback_capacity_cases true L (Some msvc_debug_callback_fn)
                   NULL (L_level L) HL) as [_ ->].
Qed.

Lemma X10_witness :
  callbacks (log_set_level 5 (log_init true (log_set_level 3 L_init)).1) !! 0%nat
  = Some (mkCallback (Some msvc_debug_callback_fn) NULL 3).
Proof.
  destruct (X10_log_init W_mark (log_set_level 3 L_init) 5 tm_sample 4 "main.c" 42
              "ready" []) as (_ & Hmsc & _).
  destruct Hmsc as (_ & Hslot & _).
  - exact (reachable_step true (Set_level 3) L_init (reachable_init true)).
  - vm_compute. lia.
  - exact Hslot.
Defined.

(** The callback part of a log call whose level reaches the thresholds of
    two registered callbacks: the second finds what the first left in the
    event, with its own user data and the argument list set anew. *)
Lemma dispatch_two W now lvl file line fmt ap L c0 c1 :
  callbacks L = [c0; c1] → fn c0 ≠ None → fn c1 ≠ None →
  level c0 ≤ lvl → level c1 ≤ lvl →
  dispatch W now lvl file line fmt ap L =
    [CallCb 0 c0 (event_for now lvl file line fmt ap (udata c0));
     CallCb 1 c1
       (va_start ap
          (init_event now
             (after_call W (fn c0)
                (event_for now lvl file line fmt ap (udata c0)))
             (udata c1)))].
Proof.
  intros Hcs H0 H1 Hl0 Hl1. unfold dispatch, log_body; simpl. rewrite Hcs; simpl.
  destruct (fn c0) eqn:Hf0; [|done]. destruct (fn c1) eqn:Hf1; [|done].
  replace (level c0 <=? lvl) with true by (symmetry; by apply Z.leb_le).
  replace (level c1 <=? lvl) with true by (symmetry; by apply Z.leb_le).
  done.
Qed.

(** X11. Registration does not look for duplicates: registering the same
    function and user data twice in a state without callbacks succeeds
    twice and fills both slots, and every log call at or above the
    threshold then calls that sink twice; when the sink only reads the
    event, both calls carry the event of the log call. *)
Theorem X11_duplicates_are_registered (W : sink_writes) (msc : bool)
    (L : Logger) (f : LogFn) (u : ptr) (lvl : Z) (now : tm) (l : Z)
    (file : string) (line : Z) (fmt : string) (ap : va_list) :
  reachable msc L → count_registered L = 0%nat → lvl ≤ l →
  let cb := mkCallback (Some f) u lvl in
  let r1 := log_add_callback (Some f) u lvl L in
  let r2 := log_add_callback (Some f) u lvl r1.1 in
  r1.2 = 0 ∧ r2.2 = 0 ∧ count_registered r2.1 = MAX_CALLBACKS ∧
  omap callee_of (log_log W now l file line fmt ap r2.1) = [(0%nat, cb); (1%nat, cb)] ∧
  ((∀ ev, after_call W (Some f) ev = ev) →
   callback_calls (log_log W now l file line fmt ap r2.1) =
     [CallCb 0 cb (event_for now l file line fmt ap u);
      CallCb 1 cb (event_for now l file line fmt ap u)]).
Proof.
  intros HL Hnone Hle. cbv zeta.
  destruct (reachable_shape msc L HL) as (c0 & c1 & Hcs & H01).
  rewrite (count_registered_two L c0 c1 Hcs) in Hnone. unfold registered in Hnone.
  destruct (fn c0) eqn:H0; [destruct (fn c1); simpl in Hnone; lia|].
  destruct (fn c1) eqn:H1; [simpl in Hnone; lia|].
  assert (log_add_callback (Some f) u lvl L =
            (set_callback 0 (mkCallback (Some f) u lvl) L, 0)) as Hr1.
  { rewrite (log_add_callback_two _ _ _ L c0 c1 Hcs). by rewrite H0. }
  rewrite Hr1; simpl.
  assert (log_add_callback (Some f) u lvl
            (set_callback 0 (mkCallback (Some f) u lvl) L) =
          (set_callback 1 (mkCallback (Some f) u lvl)
             (set_callback 0 (mkCallback (Some f) u lvl) L), 0)) as Hr2.
  { rewrite (log_add_callback_two _ _ _ _ (mkCallback (Some f) u lvl) c1)
      by (simpl; by rewrite Hcs). simpl. by rewrite H1. }
  rewrite Hr2; simpl.
  assert (callbacks (set_callback 1 (mkCallback (Some f) u lvl)
                       (set_callback 0 (mkCallback (Some f) u lvl) L)) =
          [mkCallback (Some f) u lvl; mkCallback (Some f) u lvl]) as Hcs2
    by (simpl; by rewrite Hcs).
  pose proof (dispatch_two W now l file line fmt ap _ _ _ Hcs2) as Hd.
  simpl in Hd. specialize (Hd ltac:(done) ltac:(done) Hle Hle).
  split; [done|]. split; [done|]. split; [|split].
  - by rewrite (count_registered_two _ _ _ Hcs2).
  - rewrite log_log_split, omap_app, Hd.
    unfold log_console.
    by destruct (negb _ && _).
  - intros Hro. rewrite callback_calls_log_log, Hd.
    by rewrite (Hro (event_for now l file line fmt ap u)).
Qed.

Lemma X11_witness :
  callback_calls
    (log_log W_mark tm_sample 2 "main.c" 42 "ready" []
       (log_add_fp 77 1 (log_add_fp 77 1 L_init).1).1) =
  [CallCb 0 (mkCallback (Some file_callback_fn) 77 1) ev_sample;
   CallCb 1 (mkCallback (Some file_callback_fn) 77 1) ev_sample].
Proof.
  destruct (X11_duplicates_are_registered W_mark false L_init file_callback_fn
              77 1 tm_sample 2 "main.c" 42 "ready" [] (reachable_init false))
    as (_ & _ & _ & _ & Hcalls).
  - reflexivity.
  - lia.
  - apply Hcalls. reflexivity.
Defined.

(** X16. The event is shared by the sinks of one log call: with two
    registered callbacks whose thresholds the level reaches, the first
    finds the event of the log call, and the second finds what the first
    left in it, but for the user data and the argument list, which are set
    anew, and for a time the first nulled, which is read again. A sink of
    the caller that writes the line or the level of its event so changes
    what the sink after it receives. *)
Theorem X16_event_is_shared (W : sink_writes) (msc : bool) (L : Logger)
    (now : tm) (lvl : Z) (file : string) (line : Z) (fmt : string)
    (ap : va_list) (c0 c1 : Callback) :
  reachable msc L → callbacks L = [c0; c1] → fn c1 ≠ None →
  level c0 ≤ lvl → level c1 ≤ lvl →
  let e0 := event_for now lvl file line fmt ap (udata c0) in
  let left := after_call W (fn c0) e0 in
  ∃ e1, callback_calls (log_log W now lvl file line fmt ap L) =
          [CallCb 0 c0 e0; CallCb 1 c1 e1] ∧
        ev_fmt e1 = ev_fmt left ∧ ev_file e1 = ev_file left ∧
        ev_line e1 = ev_line left ∧ ev_level e1 = ev_level left ∧
        ev_time e1 = Some (default now (ev_time left)) ∧
        ev_udata e1 = udata c1 ∧ ev_ap e1 = ap.
Proof.
  intros HL Hcs H1 Hl0 Hl1 e0 left.
  assert (fn c0 ≠ None) as H0.
  { destruct (reachable_prefix_closed msc L HL 0%nat 1%nat c1) as (c & Hc & Hn);
      [lia|by rewrite Hcs|done|]. rewrite Hcs in Hc. by simplify_eq/=. }
  eexists. rewrite callback_calls_log_log.
  rewrite (dispatch_two W now lvl file line fmt ap L c0 c1 Hcs H0 H1 Hl0 Hl1).
  split; [reflexivity|]. simpl. fold e0. fold left.
  by destruct (ev_time left).
Qed.

Lemma X16_witness :
  ∃ e1, callback_calls
          (log_log W_mark tm_sample 4 "main.c" 42 "ready" []
             (log_add_fp 77 1 (log_add_callback (Some (user_fn 1)) 88 4 L_init).1).1) =
          [CallCb 0 (mkCallback (Some (user_fn 1)) 88 4)
             (event_for tm_sample 4 "main.c" 42 "ready" [] 88);
           CallCb 1 (mkCallback (Some file_callback_fn) 77 1) e1] ∧
        ev_line e1 = -1 ∧ ev_level e1 = 5 ∧ ev_udata e1 = 77.
Proof.
  destruct (X16_event_is_shared W_mark false
              (log_add_fp 77 1 (log_add_callback (Some (user_fn 1)) 88 4 L_init).1).1
              tm_sample 4 "main.c" 42 "ready" []
              (mkCallback (Some (user_fn 1)) 88 4)
              (mkCallback (Some file_callback_fn) 77 1))
    as (e1 & Hcalls & _ & _ & Hline & Hlevel & _ & Hud & _).
  - exact (reachable_step false (Add_fp 77 1) _
             (reachable_step false (Add_callback (Some (user_fn 1)) 88 4) L_init
                (reachable_init false))).
  - reflexivity.
  - simpl. discriminate.
  - simpl. lia.
  - simpl. lia.
  - exists e1. split; [exact Hcalls|]. split; [exact Hline|].
    split; [exact Hlevel|exact Hud].
Defined.

(** ** Further properties: the two string tables *)

Lemma index_below {A : Type} (table : list A) (i : Z) (x : A) :
  index table i = Some x →
  0 ≤ i < Z.of_nat (length table) ∧ table !! Z.to_nat i = Some x.
Proof.
  unfold index. destruct (Z.ltb_spec i 0) as [|Hge]; [done|].
  intros H. split; [|done]. apply lookup_lt_Some in H. lia.
Qed.

(** Two indices that read the same entry of a table without repetition. *)
Lemma index_inj {A : Type} (table : list A) (i j : Z) (x : A) :
  NoDup table → index table i = Some x → index table j = Some x → i = j.
Proof.
  intros Hnd Hi Hj. apply index_below in Hi as [Hi Hli], Hj as [Hj Hlj].
  pose proof (NoDup_lookup table _ _ x Hnd Hli Hlj). lia.
Qed.

(** X12. [ErrorCodeToString] names each code differently: two codes with
    the same string are the same code, so the string tells the code. *)
Theorem X12_error_code_strings_distinct (c1 c2 : Z) (s : string) :
  ErrorCodeToString c1 = Some s → ErrorCodeToString c2 = Some s → c1 = c2.
Proof.
  apply index_inj. unfold error_code_strings.
  apply (bool_decide_unpack _). by vm_compute.
Qed.

Lemma X12_witness :
  ErrorCodeToString 2 = Some "CU_LOG_FILE_ERROR"%string ∧ 2 = 2.
Proof.
  split; [reflexivity|].
  apply (X12_error_code_strings_distinct 2 2 "CU_LOG_FILE_ERROR"); reflexivity.
Defined.

(** X13. [log_level_string] gives the levels 0 to 5 the tags TRACE, DEBUG,
    INFO, WARN, ERROR and FATAL; it is in bounds exactly for these levels
    and names each of them differently; every tag is at most five
    characters long, so the level column of a line is exactly six
    characters wide (five under [LOG_USE_COLOR]) and what follows it starts
    at a fixed column. *)
Theorem X13_level_tags (l1 l2 : Z) (lv : string) :
  (log_level_string 0 = Some "TRACE"%string ∧
   log_level_string 1 = Some "DEBUG"%string ∧
   log_level_string 2 = Some "INFO"%string ∧
   log_level_string 3 = Some "WARN"%string ∧
   log_level_string 4 = Some "ERROR"%string ∧
   log_level_string 5 = Some "FATAL"%string) ∧
  (0 ≤ l1 ≤ 5 → is_Some (log_level_string l1)) ∧
  (log_level_string l1 = Some lv →
   0 ≤ l1 ≤ 5 ∧
   (log_level_string l2 = Some lv → l1 = l2) ∧
   String.length (pad_right 6 lv) = 6%nat ∧
   String.length (pad_right 5 lv) = 5%nat).
Proof.
  split; [done|]. split.
  { intros Hr. by destruct (index_level_strings l1 Hr) as [? _]. }
  intros H1. pose proof (index_level_strings_range l1 lv H1) as Hr.
  split; [done|]. split.
  - intros H2. apply (index_inj level_strings l1 l2 lv); [|done|done].
    unfold level_strings. apply (bool_decide_unpack _). by vm_compute.
  - unfold log_level_string in H1.
    assert (l1 = 0 ∨ l1 = 1 ∨ l1 = 2 ∨ l1 = 3 ∨ l1 = 4 ∨ l1 = 5) as Hc by lia.
    destruct Hc as [->|[->|[->|[->|[->| ->]]]]]; vm_compute in H1;
      simplify_eq; by vm_compute.
Qed.

Lemma X13_witness :
  is_Some (log_level_string 5) ∧ String.length (pad_right 6 "WARN") = 6%nat.
Proof.
  destruct (X13_level_tags 5 5 "FATAL") as (_ & Hin & _).
  destruct (X13_level_tags 3 3 "WARN") as (_ & _ & Hw).
  split; [apply Hin; lia|].
  destruct Hw as (_ & _ & Hw & _); [reflexivity|]. exact Hw.
Defined.

(** ** Further properties: the two line formats side by side *)

Lemma string_app_assoc (s1 s2 s3 : string) :
  ((s1 +:+ s2) +:+ s3)%string = (s1 +:+ (s2 +:+ s3))%string.
Proof.
  induction s1 as [|c s1 IH]; [done|].
  change (String c ((s1 +:+ s2) +:+ s3) = String c (s1 +:+ (s2 +:+ s3))).
  by rewrite IH.
Qed.

(** X14. Without [LOG_USE_COLOR] the two sinks write the same line but for
    the date: for one event, what the file sink writes is [YYYY-MM-DD], a
    space, and what the console sink writes. *)
Theorem X14_file_line_is_dated_console_line
    (vformat : string → va_list → string) (ev : log_Event) (t : tm)
    (lv : string) :
  ev_time ev = Some t → tm_ok t →
  index level_strings (ev_level ev) = Some lv →
  ∃ console file,
    stdout_callback vformat false ev = Some console ∧
    file_callback vformat ev = Some file ∧
    written file = (ymd t +:+ " " +:+ written console)%string.
Proof.
  intros Ht Hok Hlv. unfold stdout_callback, file_callback.
  rewrite Ht; simpl.
  rewrite (strftime_hms t Hok), (strftime_ymd_hms t Hok), Hlv; simpl.
  eexists _, _. split; [reflexivity|]. split; [reflexivity|].
  unfold written; simpl. unfold ymd_hms, ymd.
  rewrite !string_app_assoc. reflexivity.
Qed.

Lemma X14_witness :
  ∃ console file,
    stdout_callback vformat_plain false ev_sample = Some console ∧
    file_callback vformat_plain ev_sample = Some file ∧
    written file = ("2024-01-03" +:+ " " +:+ written console)%string.
Proof.
  apply (X14_file_line_is_dated_console_line vformat_plain ev_sample tm_sample
           "INFO").
  - reflexivity.
  - exact tm_sample_ok.
  - reflexivity.
Defined.
